(** * openseadragon-scalebar: scale selection, unit formatting and placement

    A shallow embedding of [openseadragon-scalebar.ts].

    Numbers.  A JavaScript [number] is modelled as a real number: the
    arithmetic below is the exact arithmetic the code is written against
    ([Math.log], [Math.pow], [Math.ceil], [Math.round] as the mathematical
    functions).  Values that the code only ever produces as integers (the
    result of [Math.ceil] and [Math.round], the exponent given to [Math.pow])
    are kept in [Z].  Rounding of IEEE-754 doubles is outside this model;
    modules [Doubles] and [DoublesRounding] restate [getSignificand] and
    [roundSignificand] on binary64 values, to evaluate them where rounding
    decides the result.

    Strings.  A string built by [number + string] concatenation is kept as
    the sequence of its pieces, a number piece standing for the digits
    [ToString] would print.

    Objects.  [this] is a record passed in and returned; a style declaration
    is a finite map from property names to values; a call that can throw
    returns a [Completion]. *)

From Stdlib Require Import Reals Lra Lia ZArith String Ascii List.
From Stdlib Require Import PrimFloat FloatOps SpecFloat Uint63.
From stdpp Require Import base option strings gmap.
Import ListNotations.

Open Scope R_scope.

(** ** The [Math] functions the code calls *)

Module Math.

Definition log (x : R) : R := ln x.

(** [Math.ceil]; integer valued. *)
Definition ceil (x : R) : Z := Zceil x.

(** [Math.round]: the nearest integer, ties going up. *)
Definition round (x : R) : Z := Zfloor (x + / 2).

(** [Math.pow]; every call site has an integer exponent. *)
Definition pow (b : R) (e : Z) : R := powerRZ b e.

Definition max (a b : R) : R := Rmax a b.
Definition min (a b : R) : R := Rmin a b.

End Math.

(** ** Numeric helpers (module level functions of the source) *)

Definition log10 (x : R) : R := Math.log x / Math.log 10.

Definition getSignificand (x : R) : R :=
  x * Math.pow 10 (Math.ceil (- log10 x)).

(** The three sequential checks of [normalize], applied to [result]. *)
Definition snap (result : R) : R :=
  let result := if Rle_dec 5 result then result / 5 else result in
  let result := if Rle_dec 4 result then result / 4 else result in
  let result := if Rle_dec 2 result then result / 2 else result in
  result.

Definition normalize (value minSize : R) : R :=
  let significand := getSignificand value in
  let minSizeSign := getSignificand minSize in
  let result := getSignificand (significand / minSizeSign) in
  snap result.

Definition roundSignificand (x : R) (decimalPlaces : Z) : R :=
  let exponent := (- Math.ceil (- log10 x))%Z in
  let power := (decimalPlaces - exponent)%Z in
  let significand := x * Math.pow 10 power in
  if (power <? 0)%Z
  then IZR (Math.round significand) * Math.pow 10 (- power)
  else IZR (Math.round significand) / Math.pow 10 power.

(** ** Display text

    [factor + spacer + unitSuffix + plural]: the pieces of a concatenation,
    left to right. *)

Inductive piece : Type :=
| Num (n : R)
| Str (s : string).

Definition Text : Type := list piece.

Definition lit (s : string) : Text := [Str s].

Record SizeAndText : Type := mkSizeAndText { size : R; text : Text }.

Definition getWithUnit (value : R) (unitSuffix : string) : Text :=
  if Rlt_dec value 0.000001 then
    [Num (value * 1000000000); Str " n"; Str unitSuffix]
  else if Rlt_dec value 0.001 then
    [Num (value * 1000000); Str " μ"; Str unitSuffix]
  else if Rlt_dec value 1 then
    [Num (value * 1000); Str " m"; Str unitSuffix]
  else if Rle_dec 1000 value then
    [Num (value / 1000); Str " k"; Str unitSuffix]
  else
    [Num value; Str " "; Str unitSuffix].

Definition getScalebarSizeAndText (ppm minSize : R) (unitSuffix : string)
    (handlePlural : option bool) (spacer : option string) : SizeAndText :=
  let spacer := match spacer with None => " "%string | Some sp => sp end in
  let value := normalize ppm minSize in
  let factor := roundSignificand (value / ppm * minSize) 3 in
  let size := value * minSize in
  let plural :=
    match handlePlural with
    | Some true => if Rlt_dec 1 factor then "s"%string else ""%string
    | _ => ""%string
    end in
  {| size := size;
     text := [Num factor; Str spacer; Str unitSuffix; Str plural] |}.

Definition getScalebarSizeAndTextForMetric (ppm minSize : R)
    (unitSuffix : string) : SizeAndText :=
  let value := normalize ppm minSize in
  let factor := roundSignificand (value / ppm * minSize) 3 in
  let size := value * minSize in
  let valueWithUnit := getWithUnit factor unitSuffix in
  {| size := size; text := valueWithUnit |}.

(** ** The unit renderers *)

Module ScalebarSizeAndTextRenderer.

Definition METRIC_LENGTH (ppm minSize : R) : SizeAndText :=
  getScalebarSizeAndTextForMetric ppm minSize "m".

Definition IMPERIAL_LENGTH (ppm minSize : R) : SizeAndText :=
  let maxSize := minSize * 2 in
  let ppi := ppm * 0.0254 in
  if Rlt_dec maxSize (ppi * 12) then
    if Rlt_dec maxSize ppi then
      let ppt := ppi / 1000 in
      getScalebarSizeAndText ppt minSize "th" None None
    else
      getScalebarSizeAndText ppi minSize "in" None None
  else
    let ppf := ppi * 12 in
    if Rlt_dec maxSize (ppf * 2000) then
      getScalebarSizeAndText ppf minSize "ft" None None
    else
      let ppmi := ppf * 5280 in
      getScalebarSizeAndText ppmi minSize "mi" None None.

Definition ASTRONOMY (ppa minSize : R) : SizeAndText :=
  let maxSize := minSize * 2 in
  if Rlt_dec maxSize (ppa * 60) then
    getScalebarSizeAndText ppa minSize (String "034"%char EmptyString)
      (Some false) (Some ""%string)
  else
    let ppminutes := ppa * 60 in
    if Rlt_dec maxSize (ppminutes * 60) then
      getScalebarSizeAndText ppminutes minSize "'" (Some false) (Some ""%string)
    else
      let ppd := ppminutes * 60 in
      getScalebarSizeAndText ppd minSize "&#176" (Some false) (Some ""%string).

Definition STANDARD_TIME (pps minSize : R) : SizeAndText :=
  let maxSize := minSize * 2 in
  if Rlt_dec maxSize (pps * 60) then
    getScalebarSizeAndTextForMetric pps minSize "s"
  else
    let ppminutes := pps * 60 in
    if Rlt_dec maxSize (ppminutes * 60) then
      getScalebarSizeAndText ppminutes minSize "minute" (Some true) None
    else
      let pph := ppminutes * 60 in
      if Rlt_dec maxSize (pph * 24) then
        getScalebarSizeAndText pph minSize "hour" (Some true) None
      else
        let ppd := pph * 24 in
        if Rlt_dec maxSize (ppd * 365.25) then
          getScalebarSizeAndText ppd minSize "day" (Some true) None
        else
          let ppy := ppd * 365.25 in
          getScalebarSizeAndText ppy minSize "year" (Some true) None.

Definition METRIC_GENERIC : R -> R -> string -> SizeAndText :=
  getScalebarSizeAndTextForMetric.

End ScalebarSizeAndTextRenderer.

(** ** JavaScript truthiness and completions *)

Class Truthy (A : Type) : Type := truthy : A -> bool.

#[export] Instance truthy_bool : Truthy bool := fun b => b.

#[export] Instance truthy_string : Truthy string :=
  fun s => match s with EmptyString => false | String _ _ => true end.

#[export] Instance truthy_number : Truthy R :=
  fun n => if Req_dec_T n 0 then false else true.

#[export] Instance truthy_index : Truthy nat :=
  fun n => match n with O => false | S _ => true end.

#[export] Instance truthy_option {A : Type} `{Truthy A} : Truthy (option A) :=
  fun o => match o with Some a => truthy a | None => false end.

(** [o || d] for an optional field [o]. *)
Definition orElse {A : Type} `{Truthy A} (o : option A) (d : A) : A :=
  match o with
  | Some a => if truthy a then a else d
  | None => d
  end.

(** [null] in arithmetic counts as zero. *)
Definition toNumber (o : option R) : R :=
  match o with Some n => n | None => 0 end.

(** A call either returns or throws. *)
Inductive Completion (A : Type) : Type :=
| Normal (a : A)
| Throw (message : string).

Arguments Normal {A} a.
Arguments Throw {A} message.

(** ** Enumerations and geometry *)

Inductive ScalebarType : Type :=
| NONE
| MICROSCOPY
| MAP.

Module ScalebarLocation.
Inductive t : Type :=
| NONE
| TOP_LEFT
| TOP_RIGHT
| BOTTOM_RIGHT
| BOTTOM_LEFT.
End ScalebarLocation.

Abbreviation ScalebarLocation := ScalebarLocation.t.

#[export] Instance truthy_type : Truthy ScalebarType :=
  fun t => match t with NONE => false | _ => true end.

#[export] Instance truthy_location : Truthy ScalebarLocation :=
  fun l => match l with ScalebarLocation.NONE => false | _ => true end.

Module Point.
Record t : Type := new { x : R; y : R }.
End Point.

(** ** The host: DOM element, tiled image, viewer *)

(** A style declaration is a map from property names to values.  The box an
    element is laid out in is the browser's business: [layout] gives
    [(offsetWidth, offsetHeight)] for the current style and content. *)
Record HTMLDivElement : Type := mkDiv {
  style : gmap string Text;
  innerHTML : Text;
  layout : gmap string Text -> Text -> R * R
}.

Definition offsetWidth (e : HTMLDivElement) : R :=
  fst (layout e (style e) (innerHTML e)).

Definition offsetHeight (e : HTMLDivElement) : R :=
  snd (layout e (style e) (innerHTML e)).

(** [e.style.prop = v] *)
Definition setStyle (prop : string) (v : Text) (e : HTMLDivElement)
  : HTMLDivElement :=
  mkDiv (<[prop := v]> (style e)) (innerHTML e) (layout e).

(** [e.innerHTML = v] *)
Definition setInnerHTML (v : Text) (e : HTMLDivElement) : HTMLDivElement :=
  mkDiv (style e) v (layout e).

(** [document.createElement("div")] *)
Definition createElement (box : gmap string Text -> Text -> R * R)
  : HTMLDivElement :=
  mkDiv ∅ [] box.

(** The parts of a tiled image read by [tiledImageViewportToImageZoom]. *)
Record TiledImage : Type := mkTiledImage {
  scaleSpringCurrentValue : R;
  viewportContainerInnerSizeX : R;
  sourceDimensionsX : R
}.

(** What the scalebar reads from the viewer.  [wrapHorizontal] and
    [wrapVertical] are only tested for truthiness. *)
Record OSDViewer : Type := mkViewer {
  isOpen : bool;
  getZoom : R;
  pixelFromPoint : Point.t -> Point.t;
  worldItems : list TiledImage;
  containerOffsetWidth : R;
  containerOffsetHeight : R;
  wrapHorizontal : bool;
  wrapVertical : bool;
  aspectRatio : R
}.

Inductive DrawFunction : Type :=
| DrawMapScalebar
| DrawMicroscopyScalebar
| DrawNothing.

(** A function object is always truthy. *)
#[export] Instance truthy_function : Truthy DrawFunction := fun _ => true.

Record ScalebarOptions : Type := mkOptions {
  o_viewer : option OSDViewer;
  o_type : option ScalebarType;
  o_pixelsPerMeter : option R;
  o_referenceItemIdx : option nat;
  o_minWidth : option string;
  o_location : option ScalebarLocation;
  o_xOffset : option R;
  o_yOffset : option R;
  o_stayInsideImage : option bool;
  o_color : option string;
  o_fontColor : option string;
  o_backgroundColor : option string;
  o_fontSize : option string;
  o_fontFamily : option string;
  o_barThickness : option R;
  o_sizeAndTextRenderer : option (R -> R -> SizeAndText)
}.

(** ** The [Scalebar] class *)

Record Scalebar : Type := mkScalebar {
  viewer : OSDViewer;
  divElt : HTMLDivElement;
  minWidth : R;
  drawScalebar : DrawFunction;
  color : string;
  fontColor : string;
  backgroundColor : string;
  fontSize : string;
  fontFamily : string;
  barThickness : R;
  pixelsPerMeter : option R;
  referenceItemIdx : nat;
  location : ScalebarLocation;
  xOffset : R;
  yOffset : R;
  stayInsideImage : bool;
  sizeAndTextRenderer : R -> R -> SizeAndText
}.

(** Assignments [this.f = v].  The fields [viewer], [minWidth] and
    [drawScalebar] are assigned by the constructor only. *)

Definition set_divElt (v : HTMLDivElement) (this : Scalebar) : Scalebar :=
  mkScalebar (viewer this) v (minWidth this) (drawScalebar this)
    (color this) (fontColor this) (backgroundColor this) (fontSize this)
    (fontFamily this) (barThickness this) (pixelsPerMeter this)
    (referenceItemIdx this) (location this) (xOffset this) (yOffset this)
    (stayInsideImage this) (sizeAndTextRenderer this).

Definition set_color (v : string) (this : Scalebar) : Scalebar :=
  mkScalebar (viewer this) (divElt this) (minWidth this) (drawScalebar this)
    v (fontColor this) (backgroundColor this) (fontSize this)
    (fontFamily this) (barThickness this) (pixelsPerMeter this)
    (referenceItemIdx this) (location this) (xOffset this) (yOffset this)
    (stayInsideImage this) (sizeAndTextRenderer this).

Definition set_fontColor (v : string) (this : Scalebar) : Scalebar :=
  mkScalebar (viewer this) (divElt this) (minWidth this) (drawScalebar this)
    (color this) v (backgroundColor this) (fontSize this) (fontFamily this)
    (barThickness this) (pixelsPerMeter this) (referenceItemIdx this)
    (location this) (xOffset this) (yOffset this) (stayInsideImage this)
    (sizeAndTextRenderer this).

Definition set_backgroundColor (v : string) (this : Scalebar) : Scalebar :=
  mkScalebar (viewer this) (divElt this) (minWidth this) (drawScalebar this)
    (color this) (fontColor this) v (fontSize this) (fontFamily this)
    (barThickness this) (pixelsPerMeter this) (referenceItemIdx this)
    (location this) (xOffset this) (yOffset this) (stayInsideImage this)
    (sizeAndTextRenderer this).

Definition set_fontSize (v : string) (this : Scalebar) : Scalebar :=
  mkScalebar (viewer this) (divElt this) (minWidth this) (drawScalebar this)
    (color this) (fontColor this) (backgroundColor this) v (fontFamily this)
    (barThickness this) (pixelsPerMeter this) (referenceItemIdx this)
    (location this) (xOffset this) (yOffset this) (stayInsideImage this)
    (sizeAndTextRenderer this).

Definition set_fontFamily (v : string) (this : Scalebar) : Scalebar :=
  mkScalebar (viewer this) (divElt this) (minWidth this) (drawScalebar this)
    (color this) (fontColor this) (backgroundColor this) (fontSize this) v
    (barThickness this) (pixelsPerMeter this) (referenceItemIdx this)
    (location this) (xOffset this) (yOffset this) (stayInsideImage this)
    (sizeAndTextRenderer this).

Definition set_barThickness (v : R) (this : Scalebar) : Scalebar :=
  mkScalebar (viewer this) (divElt this) (minWidth this) (drawScalebar this)
    (color this) (fontColor this) (backgroundColor this) (fontSize this)
    (fontFamily this) v (pixelsPerMeter this) (referenceItemIdx this)
    (location this) (xOffset this) (yOffset this) (stayInsideImage this)
    (sizeAndTextRenderer this).

Definition set_pixelsPerMeter (v : option R) (this : Scalebar) : Scalebar :=
  mkScalebar (viewer this) (divElt this) (minWidth this) (drawScalebar this)
    (color this) (fontColor this) (backgroundColor this) (fontSize this)
    (fontFamily this) (barThickness this) v (referenceItemIdx this)
    (location this) (xOffset this) (yOffset this) (stayInsideImage this)
    (sizeAndTextRenderer this).

Definition set_referenceItemIdx (v : nat) (this : Scalebar) : Scalebar :=
  mkScalebar (viewer this) (divElt this) (minWidth this) (drawScalebar this)
    (color this) (fontColor this) (backgroundColor this) (fontSize this)
    (fontFamily this) (barThickness this) (pixelsPerMeter this) v
    (location this) (xOffset this) (yOffset this) (stayInsideImage this)
    (sizeAndTextRenderer this).

Definition set_location (v : ScalebarLocation) (this : Scalebar) : Scalebar :=
  mkScalebar (viewer this) (divElt this) (minWidth this) (drawScalebar this)
    (color this) (fontColor this) (backgroundColor this) (fontSize this)
    (fontFamily this) (barThickness this) (pixelsPerMeter this)
    (referenceItemIdx this) v (xOffset this) (yOffset this)
    (stayInsideImage this) (sizeAndTextRenderer this).

Definition set_xOffset (v : R) (this : Scalebar) : Scalebar :=
  mkScalebar (viewer this) (divElt this) (minWidth this) (drawScalebar this)
    (color this) (fontColor this) (backgroundColor this) (fontSize this)
    (fontFamily this) (barThickness this) (pixelsPerMeter this)
    (referenceItemIdx this) (location this) v (yOffset this)
    (stayInsideImage this) (sizeAndTextRenderer this).

Definition set_yOffset (v : R) (this : Scalebar) : Scalebar :=
  mkScalebar (viewer this) (divElt this) (minWidth this) (drawScalebar this)
    (color this) (fontColor this) (backgroundColor this) (fontSize this)
    (fontFamily this) (barThickness this) (pixelsPerMeter this)
    (referenceItemIdx this) (location this) (xOffset this) v
    (stayInsideImage this) (sizeAndTextRenderer this).

Definition set_stayInsideImage (v : bool) (this : Scalebar) : Scalebar :=
  mkScalebar (viewer this) (divElt this) (minWidth this) (drawScalebar this)
    (color this) (fontColor this) (backgroundColor this) (fontSize this)
    (fontFamily this) (barThickness this) (pixelsPerMeter this)
    (referenceItemIdx this) (location this) (xOffset this) (yOffset this) v
    (sizeAndTextRenderer this).

Definition set_sizeAndTextRenderer (v : R -> R -> SizeAndText) (this : Scalebar) : Scalebar :=
  mkScalebar (viewer this) (divElt this) (minWidth this) (drawScalebar this)
    (color this) (fontColor this) (backgroundColor this) (fontSize this)
    (fontFamily this) (barThickness this) (pixelsPerMeter this)
    (referenceItemIdx this) (location this) (xOffset this) (yOffset this)
    (stayInsideImage this) v.

(** [if (o) this.f = o] *)
Definition assignIfTruthy {A : Type} `{Truthy A} (o : option A)
    (set : A -> Scalebar -> Scalebar) (this : Scalebar) : Scalebar :=
  match o with
  | Some a => if truthy a then set a this else this
  | None => this
  end.

Definition setDrawScalebarFunction (type : ScalebarType) : DrawFunction :=
  match type with
  | MAP => DrawMapScalebar
  | MICROSCOPY => DrawMicroscopyScalebar
  | NONE => DrawNothing
  end.

(** Returns the updated instance and the measured width. *)
Definition setMinWidth (minWidth : string) (this : Scalebar) : Scalebar * R :=
  let this := set_divElt (setStyle "width" (lit minWidth) (divElt this)) this in
  let this := set_divElt (setStyle "display" (lit "") (divElt this)) this in
  (this, offsetWidth (divElt this)).

Definition updateOptions (options : option ScalebarOptions) (this : Scalebar)
  : Scalebar :=
  match options with
  | None => this
  | Some options =>
    let this :=
      match o_type options with
      | Some ty =>
          if truthy ty then let _ := setDrawScalebarFunction ty in this
          else this
      | None => this
      end in
    let this :=
      match o_minWidth options with
      | Some w => if truthy w then fst (setMinWidth w this) else this
      | None => this
      end in
    let this := assignIfTruthy (o_color options) set_color this in
    let this := assignIfTruthy (o_fontColor options) set_fontColor this in
    let this :=
      assignIfTruthy (o_backgroundColor options) set_backgroundColor this in
    let this := assignIfTruthy (o_fontSize options) set_fontSize this in
    let this := assignIfTruthy (o_fontFamily options) set_fontFamily this in
    let this := assignIfTruthy (o_barThickness options) set_barThickness this in
    let this :=
      assignIfTruthy (o_pixelsPerMeter options)
        (fun v => set_pixelsPerMeter (Some v)) this in
    let this :=
      assignIfTruthy (o_referenceItemIdx options) set_referenceItemIdx this in
    let this := assignIfTruthy (o_location options) set_location this in
    let this := assignIfTruthy (o_xOffset options) set_xOffset this in
    let this := assignIfTruthy (o_yOffset options) set_yOffset this in
    let this :=
      assignIfTruthy (o_stayInsideImage options) set_stayInsideImage this in
    match o_sizeAndTextRenderer options with
    | Some f => set_sizeAndTextRenderer f this
    | None => this
    end
  end.

(** [new Scalebar(options)], given the layout of the element that
    [document.createElement] hands out.  Registering the three event handlers
    has no effect on the instance. *)
Definition constructor (box : gmap string Text -> Text -> R * R)
    (options : option ScalebarOptions) : Completion Scalebar :=
  let options :=
    match options with
    | Some o => o
    | None =>
        mkOptions None None None None None None None None None None None None
          None None None None
    end in
  match o_viewer options with
  | None => Throw "A viewer must be specified."
  | Some viewer =>
    let divElt := createElement box in
    let divElt := setStyle "position" (lit "relative") divElt in
    let divElt := setStyle "margin" (lit "0") divElt in
    let divElt := setStyle "pointerEvents" (lit "none") divElt in
    (* this.setMinWidth(options.minWidth || "150px") *)
    let divElt :=
      setStyle "width" (lit (orElse (o_minWidth options) "150px")) divElt in
    let divElt := setStyle "display" (lit "") divElt in
    Normal
      {| viewer := viewer;
         divElt := divElt;
         minWidth := offsetWidth divElt;
         drawScalebar :=
           setDrawScalebarFunction (orElse (o_type options) MICROSCOPY);
         color := orElse (o_color options) "black";
         fontColor := orElse (o_fontColor options) "black";
         backgroundColor := orElse (o_backgroundColor options) "none";
         fontSize := orElse (o_fontSize options) "";
         fontFamily := orElse (o_fontFamily options) "";
         barThickness := orElse (o_barThickness options) 2;
         pixelsPerMeter :=
           match o_pixelsPerMeter options with
           | Some v => if truthy v then Some v else None
           | None => None
           end;
         referenceItemIdx := orElse (o_referenceItemIdx options) 0%nat;
         location :=
           orElse (o_location options) ScalebarLocation.BOTTOM_LEFT;
         xOffset := orElse (o_xOffset options) 5;
         yOffset := orElse (o_yOffset options) 5;
         stayInsideImage :=
           match o_stayInsideImage options with
           | Some b => b
           | None => true
           end;
         sizeAndTextRenderer :=
           match o_sizeAndTextRenderer options with
           | Some f => f
           | None => ScalebarSizeAndTextRenderer.METRIC_LENGTH
           end |}
  end.

Definition drawMicroscopyScalebar (size : R) (text : Text) (this : Scalebar)
  : Scalebar :=
  let e := divElt this in
  let e := setStyle "fontSize" (lit (fontSize this)) e in
  let e := setStyle "fontFamily" (lit (fontFamily this)) e in
  let e := setStyle "textAlign" (lit "center") e in
  let e := setStyle "color" (lit (fontColor this)) e in
  let e := setStyle "border" (lit "none") e in
  let e :=
    setStyle "borderBottom"
      [Num (barThickness this); Str "px solid "; Str (color this)] e in
  let e := setStyle "backgroundColor" (lit (backgroundColor this)) e in
  let e := setInnerHTML text e in
  let e := setStyle "width" [Num size; Str "px"] e in
  set_divElt e this.

Definition drawMapScalebar (size : R) (text : Text) (this : Scalebar)
  : Scalebar :=
  let e := divElt this in
  let e := setStyle "fontSize" (lit (fontSize this)) e in
  let e := setStyle "fontFamily" (lit (fontFamily this)) e in
  let e := setStyle "textAlign" (lit "center") e in
  let e := setStyle "color" (lit (fontColor this)) e in
  let e :=
    setStyle "border"
      [Num (barThickness this); Str "px solid "; Str (color this)] e in
  let e := setStyle "borderTop" (lit "none") e in
  let e := setStyle "backgroundColor" (lit (backgroundColor this)) e in
  let e := setInnerHTML text e in
  let e := setStyle "width" [Num size; Str "px"] e in
  set_divElt e this.

(** [this.drawScalebar(size, text)] *)
Definition callDrawScalebar (size : R) (text : Text) (this : Scalebar)
  : Scalebar :=
  match drawScalebar this with
  | DrawMapScalebar => drawMapScalebar size text this
  | DrawMicroscopyScalebar => drawMicroscopyScalebar size text this
  | DrawNothing => this
  end.

Definition getScalebarLocation (this : Scalebar) : option Point.t :=
  match location this with
  | ScalebarLocation.TOP_LEFT =>
    let x := 0 in
    let y := 0 in
    let '(x, y) :=
      if stayInsideImage this then
        let pixel := pixelFromPoint (viewer this) (Point.new 0 0) in
        let x :=
          if negb (wrapHorizontal (viewer this))
          then Math.max (Point.x pixel) 0 else x in
        let y :=
          if negb (wrapVertical (viewer this))
          then Math.max (Point.y pixel) 0 else y in
        (x, y)
      else (x, y) in
    Some (Point.new (x + xOffset this) (y + yOffset this))
  | ScalebarLocation.TOP_RIGHT =>
    let barWidth := offsetWidth (divElt this) in
    let x := containerOffsetWidth (viewer this) - barWidth in
    let y := 0 in
    let '(x, y) :=
      if stayInsideImage this then
        let pixel := pixelFromPoint (viewer this) (Point.new 1 0) in
        let x :=
          if negb (wrapHorizontal (viewer this))
          then Math.min x (Point.x pixel - barWidth) else x in
        let y :=
          if negb (wrapVertical (viewer this))
          then Math.max y (Point.y pixel) else y in
        (x, y)
      else (x, y) in
    Some (Point.new (x - xOffset this) (y + yOffset this))
  | ScalebarLocation.BOTTOM_RIGHT =>
    let barWidth := offsetWidth (divElt this) in
    let barHeight := offsetHeight (divElt this) in
    let x := containerOffsetWidth (viewer this) - barWidth in
    let y := containerOffsetHeight (viewer this) - barHeight in
    let '(x, y) :=
      if stayInsideImage this then
        let pixel :=
          pixelFromPoint (viewer this)
            (Point.new 1 (1 / aspectRatio (viewer this))) in
        let x :=
          if negb (wrapHorizontal (viewer this))
          then Math.min x (Point.x pixel - barWidth) else x in
        let y :=
          if negb (wrapVertical (viewer this))
          then Math.min y (Point.y pixel - barHeight) else y in
        (x, y)
      else (x, y) in
    Some (Point.new (x - xOffset this) (y - yOffset this))
  | ScalebarLocation.BOTTOM_LEFT =>
    let barHeight := offsetHeight (divElt this) in
    let x := 0 in
    let y := containerOffsetHeight (viewer this) - barHeight in
    let '(x, y) :=
      if stayInsideImage this then
        let pixel :=
          pixelFromPoint (viewer this)
            (Point.new 0 (1 / aspectRatio (viewer this))) in
        let x :=
          if negb (wrapHorizontal (viewer this))
          then Math.max x (Point.x pixel) else x in
        let y :=
          if negb (wrapVertical (viewer this))
          then Math.min y (Point.y pixel - barHeight) else y in
        (x, y)
      else (x, y) in
    Some (Point.new (x + xOffset this) (y - yOffset this))
  | ScalebarLocation.NONE => None
  end.

Definition tiledImageViewportToImageZoom (tiledImage : TiledImage)
    (viewportZoom : R) : R :=
  let ratio :=
    scaleSpringCurrentValue tiledImage
    * viewportContainerInnerSizeX tiledImage
    / sourceDimensionsX tiledImage in
  ratio * viewportZoom.

Definition refresh (options : option ScalebarOptions) (this : Scalebar)
  : Completion Scalebar :=
  let this := updateOptions options this in
  if negb (isOpen (viewer this))
     || negb (truthy (drawScalebar this))
     || negb (truthy (pixelsPerMeter this))
     || negb (truthy (location this))
  then
    Normal (set_divElt (setStyle "display" (lit "none") (divElt this)) this)
  else
    let this := set_divElt (setStyle "display" (lit "") (divElt this)) this in
    match worldItems (viewer this) !! referenceItemIdx this with
    | None => Throw "TypeError"
    | Some tiledImage =>
      let zoom :=
        tiledImageViewportToImageZoom tiledImage (getZoom (viewer this)) in
      let currentPPM := zoom * toNumber (pixelsPerMeter this) in
      let props := sizeAndTextRenderer this currentPPM (minWidth this) in
      let this := callDrawScalebar (size props) (text props) this in
      match getScalebarLocation this with
      | Some location =>
        let e := divElt this in
        let e := setStyle "left" [Num (Point.x location); Str "px"] e in
        let e := setStyle "top" [Num (Point.y location); Str "px"] e in
        Normal (set_divElt e this)
      | None => Normal this
      end
    end.

(** ** The same helper on IEEE-754 doubles

    [Math.ceil] and the four arithmetic operations are exact functions of
    binary64 values and are evaluated here; [Math.log] and [Math.pow] are the
    runtime's and are taken as given. *)

Module Doubles.

Definition ceil (x : float) : Z :=
  match Prim2SF x with
  | S754_finite s m e =>
      match e with
      | Zneg p =>
          if s then (- (Zpos m / 2 ^ Zpos p))%Z
          else (- ((- Zpos m) / 2 ^ Zpos p))%Z
      | _ => if s then (- (Zpos m * 2 ^ e))%Z else (Zpos m * 2 ^ e)%Z
      end
  | _ => 0%Z
  end.

Section Runtime.

Variable Math_log : float -> float.
Variable Math_pow : float -> Z -> float.

Definition log10_double (x : float) : float :=
  (Math_log x / Math_log 10)%float.

Definition getSignificand_double (x : float) : float :=
  (x * Math_pow 10 (ceil (- log10_double x)))%float.

End Runtime.

End Doubles.

(** [roundSignificand] on binary64 values, with the same runtime functions
    taken as given.  [Math.round] is exact on a double; its result, an
    integer below [2^53] at every call of the source (the significand has
    [decimalPlaces + 1] digits), converts back without rounding. *)

Module DoublesRounding.

(** [Math.round]: the nearest integer, ties going up. *)
Definition round (x : float) : Z :=
  match Prim2SF x with
  | S754_finite s m e =>
      match e with
      | Zneg p =>
          let numerator := if s then (- Zpos m)%Z else Zpos m in
          ((2 * numerator + 2 ^ Zpos p) / 2 ^ (Zpos p + 1))%Z
      | _ => if s then (- (Zpos m * 2 ^ e))%Z else (Zpos m * 2 ^ e)%Z
      end
  | _ => 0%Z
  end.

(** The double of an integer below [2^53] in magnitude. *)
Definition ofInteger (z : Z) : float :=
  if (z <? 0)%Z
  then (- PrimFloat.of_uint63 (Uint63.of_Z (- z)))%float
  else PrimFloat.of_uint63 (Uint63.of_Z z).

Section Runtime.

Variable Math_log : float -> float.
Variable Math_pow : float -> Z -> float.

Definition roundSignificand_double (x : float) (decimalPlaces : Z) : float :=
  let exponent := (- Doubles.ceil (- Doubles.log10_double Math_log x))%Z in
  let power := (decimalPlaces - exponent)%Z in
  let significand := (x * Math_pow 10 power)%float in
  if (power <? 0)%Z
  then (ofInteger (round significand) * Math_pow 10 (- power))%float
  else (ofInteger (round significand) / Math_pow 10 power)%float.

End Runtime.

End DoublesRounding.

(** Observation: the unit suffix of a text built by [getScalebarSizeAndText]. *)
Definition unitOf (r : SizeAndText) : option string :=
  match text r with
  | [Num _; Str _; Str u; Str _] => Some u
  | _ => None
  end.

(** The five metric buckets, as the specification lists them. *)
Inductive MetricPrefix : Type := Nano | Micro | Milli | Base | Kilo.

Definition spec_bucket_range (b : MetricPrefix) (value : R) : Prop :=
  match b with
  | Nano => 0 < value < 0.000001
  | Micro => 0.000001 <= value < 0.001
  | Milli => 0.001 <= value < 1
  | Base => 1 <= value < 1000
  | Kilo => 1000 <= value
  end.

Definition spec_bucket_text (b : MetricPrefix) (value : R) (unitSuffix : string)
  : Text :=
  match b with
  | Nano => [Num (value * 1000000000); Str " n"; Str unitSuffix]
  | Micro => [Num (value * 1000000); Str " μ"; Str unitSuffix]
  | Milli => [Num (value * 1000); Str " m"; Str unitSuffix]
  | Base => [Num value; Str " "; Str unitSuffix]
  | Kilo => [Num (value * 0.001); Str " k"; Str unitSuffix]
  end.

(** ** Placement: reference coordinates

    The coordinates the placement theorems compare [getScalebarLocation]
    with: the container-edge position per anchor, and that position clamped
    against the content edge. *)

(** The same instance, its viewer using another viewport transform. *)
Definition withTransform (f : Point.t -> Point.t) (this : Scalebar) : Scalebar :=
  let v := viewer this in
  mkScalebar
    (mkViewer (isOpen v) (getZoom v) f (worldItems v) (containerOffsetWidth v)
       (containerOffsetHeight v) (wrapHorizontal v) (wrapVertical v)
       (aspectRatio v))
    (divElt this) (minWidth this) (drawScalebar this)
    (color this) (fontColor this) (backgroundColor this) (fontSize this)
    (fontFamily this) (barThickness this) (pixelsPerMeter this)
    (referenceItemIdx this) (location this) (xOffset this) (yOffset this)
    (stayInsideImage this) (sizeAndTextRenderer this).

(** The normalized content corner queried for each anchor. *)
Definition spec_content_corner (this : Scalebar) : Point.t :=
  match location this with
  | ScalebarLocation.TOP_RIGHT => Point.new 1 0
  | ScalebarLocation.BOTTOM_RIGHT =>
      Point.new 1 (1 / aspectRatio (viewer this))
  | ScalebarLocation.BOTTOM_LEFT =>
      Point.new 0 (1 / aspectRatio (viewer this))
  | _ => Point.new 0 0
  end.

(** Container corner plus or minus the offset, no clamping. *)
Definition spec_unclamped_x (this : Scalebar) : option R :=
  match location this with
  | ScalebarLocation.TOP_LEFT | ScalebarLocation.BOTTOM_LEFT =>
      Some (0 + xOffset this)
  | ScalebarLocation.TOP_RIGHT | ScalebarLocation.BOTTOM_RIGHT =>
      Some (containerOffsetWidth (viewer this) - offsetWidth (divElt this)
            - xOffset this)
  | ScalebarLocation.NONE => None
  end.

Definition spec_unclamped_y (this : Scalebar) : option R :=
  match location this with
  | ScalebarLocation.TOP_LEFT | ScalebarLocation.TOP_RIGHT =>
      Some (0 + yOffset this)
  | ScalebarLocation.BOTTOM_LEFT | ScalebarLocation.BOTTOM_RIGHT =>
      Some (containerOffsetHeight (viewer this) - offsetHeight (divElt this)
            - yOffset this)
  | ScalebarLocation.NONE => None
  end.

(** The container-edge position clamped against the content edge that the
    transform [f] reports. *)
Definition spec_clamped_x (f : Point.t -> Point.t) (this : Scalebar)
  : option R :=
  let pixel := f (spec_content_corner this) in
  let barWidth := offsetWidth (divElt this) in
  match location this with
  | ScalebarLocation.TOP_LEFT | ScalebarLocation.BOTTOM_LEFT =>
      Some (Rmax 0 (Point.x pixel) + xOffset this)
  | ScalebarLocation.TOP_RIGHT | ScalebarLocation.BOTTOM_RIGHT =>
      Some (Rmin (containerOffsetWidth (viewer this) - barWidth)
              (Point.x pixel - barWidth) - xOffset this)
  | ScalebarLocation.NONE => None
  end.

Definition spec_clamped_y (f : Point.t -> Point.t) (this : Scalebar)
  : option R :=
  let pixel := f (spec_content_corner this) in
  let barHeight := offsetHeight (divElt this) in
  match location this with
  | ScalebarLocation.TOP_LEFT | ScalebarLocation.TOP_RIGHT =>
      Some (Rmax 0 (Point.y pixel) + yOffset this)
  | ScalebarLocation.BOTTOM_LEFT | ScalebarLocation.BOTTOM_RIGHT =>
      Some (Rmin (containerOffsetHeight (viewer this) - barHeight)
              (Point.y pixel - barHeight) - yOffset this)
  | ScalebarLocation.NONE => None
  end.

(** ** Example instances *)

Definition exampleViewer : OSDViewer :=
  mkViewer true 1 (fun p => Point.new (400 * Point.x p) (400 * Point.y p))
    [mkTiledImage 1 400 400] 400 300 false false (4 / 3).

(** Example 4 of the specification: bottom right, offsets [5], container
    [400 x 300], overlay [100 x 20], no clamping. *)
Definition example4 : Scalebar :=
  mkScalebar exampleViewer (createElement (fun _ _ => (100, 20))) 100
    DrawMicroscopyScalebar "black" "black" "none" "" "" 2 (Some 1) 0%nat
    ScalebarLocation.BOTTOM_RIGHT 5 5 false
    ScalebarSizeAndTextRenderer.METRIC_LENGTH.

(** Example 5: as Example 4, clamping on and the content wrapping
    horizontally. *)
Definition example5 : Scalebar :=
  mkScalebar
    (mkViewer true 1 (fun p => Point.new (400 * Point.x p) (400 * Point.y p))
       [mkTiledImage 1 400 400] 400 300 true false (4 / 3))
    (createElement (fun _ _ => (100, 20))) 100
    DrawMicroscopyScalebar "black" "black" "none" "" "" 2 (Some 1) 0%nat
    ScalebarLocation.BOTTOM_RIGHT 5 5 true
    ScalebarSizeAndTextRenderer.METRIC_LENGTH.

(** An element whose box is [w x 20] when its width is the number [w] of
    pixels and [0 x 20] otherwise. *)
Definition zeroBox (st : gmap string Text) (_ : Text) : R * R :=
  match st !! "width"%string with
  | Some [Num w; Str "px"] => (w, 20)
  | _ => (0, 20)
  end.

(** [new Scalebar({viewer, minWidth: "0px", pixelsPerMeter: 1})] on an open
    viewer: the measured minimum width is [0]. *)
Definition zeroWidthOptions : ScalebarOptions :=
  mkOptions (Some exampleViewer) None (Some 1) None (Some "0px"%string) None
    None None None None None None None None None None.

Definition zeroWidthScalebar : Scalebar :=
  mkScalebar exampleViewer
    (setStyle "display" (lit "")
       (setStyle "width" (lit "0px")
          (setStyle "pointerEvents" (lit "none")
             (setStyle "margin" (lit "0")
                (setStyle "position" (lit "relative")
                   (createElement zeroBox))))))
    0 DrawMicroscopyScalebar "black" "black" "none" "" "" 2 (Some 1) 0%nat
    ScalebarLocation.BOTTOM_LEFT 5 5 true
    ScalebarSizeAndTextRenderer.METRIC_LENGTH.

(** ** Observations and invariants used by the further properties *)

(** The number a text starts with. *)
Definition factorOf (t : Text) : option R :=
  match t with
  | Num n :: _ => Some n
  | _ => None
  end.

(** The plural piece of a text built by [getScalebarSizeAndText]. *)
Definition pluralOf (r : SizeAndText) : option string :=
  match text r with
  | [Num _; Str _; Str _; Str p] => Some p
  | _ => None
  end.

(** An instance whose enumerated and numeric settings are all truthy, the
    calibration constant apart, which may be missing but is never zero. *)
Definition configured (this : Scalebar) : Prop :=
  location this <> ScalebarLocation.NONE /\
  drawScalebar this <> DrawNothing /\
  xOffset this <> 0 /\
  yOffset this <> 0 /\
  barThickness this <> 0 /\
  pixelsPerMeter this <> Some 0.

(** Options that set nothing. *)
Definition noOptions : ScalebarOptions :=
  mkOptions None None None None None None None None None None None None None
    None None None.

(** ** Facts about base-ten exponents *)

Section Exponent.

Lemma ln10_pos : 0 < ln 10.
Proof. rewrite <- ln_1. apply ln_increasing; lra. Qed.

Lemma pow10_pos (k : Z) : 0 < Math.pow 10 k.
Proof. apply powerRZ_lt; lra. Qed.

Lemma pow10_exp (k : Z) : Math.pow 10 k = exp (IZR k * ln 10).
Proof.
  unfold Math.pow. rewrite powerRZ_Rpower by lra. reflexivity.
Qed.

Lemma pow10_add (a b : Z) :
  Math.pow 10 (a + b) = Math.pow 10 a * Math.pow 10 b.
Proof. apply powerRZ_add; lra. Qed.

Lemma pow10_neg (a : Z) : Math.pow 10 (- a) = / Math.pow 10 a.
Proof. apply powerRZ_neg'. Qed.

Lemma pow10_cancel (a : Z) : Math.pow 10 a * Math.pow 10 (- a) = 1.
Proof.
  rewrite <- pow10_add. replace (a + - a)%Z with 0%Z by lia. reflexivity.
Qed.

(** Scaling a positive number by a power of ten, seen through [exp]. *)
Lemma scaled_exp (x : R) (k : Z) :
  0 < x -> x * Math.pow 10 k = exp (ln x + IZR k * ln 10).
Proof.
  intros Hx. rewrite pow10_exp, exp_plus, exp_ln by exact Hx. reflexivity.
Qed.

(** The exponent picked by [Math.ceil (- log10 x)] is the one that scales
    [x] into [[1, 10)], and it is the only one. *)
Lemma exponent_bounds (x : R) :
  0 < x ->
  1 <= x * Math.pow 10 (Math.ceil (- log10 x)) < 10.
Proof.
  intros Hx. set (k := Math.ceil (- log10 x)).
  pose proof (Zceil_bound (- log10 x)) as [Hlo Hhi].
  fold (Math.ceil (- log10 x)) in Hlo, Hhi.
  fold k in Hlo, Hhi. unfold log10, Math.log in Hlo, Hhi.
  pose proof ln10_pos as H10.
  assert (Hge : 0 <= ln x + IZR k * ln 10).
  { assert (- (ln x / ln 10) * ln 10 <= IZR k * ln 10)
      by (apply Rmult_le_compat_r; lra).
    replace (- (ln x / ln 10) * ln 10) with (- ln x) in H by (field; lra).
    lra. }
  assert (Hlt : ln x + IZR k * ln 10 < ln 10).
  { assert ((IZR k - 1) * ln 10 < - (ln x / ln 10) * ln 10)
      by (apply Rmult_lt_compat_r; lra).
    replace (- (ln x / ln 10) * ln 10) with (- ln x) in H by (field; lra).
    lra. }
  rewrite scaled_exp by exact Hx. split.
  - rewrite <- exp_0. destruct Hge as [Hgt | Heq].
    + left. apply exp_increasing; exact Hgt.
    + right. rewrite <- Heq. reflexivity.
  - rewrite <- (exp_ln 10) at 2 by lra. apply exp_increasing; exact Hlt.
Qed.

Lemma exponent_unique (x : R) (k : Z) :
  0 < x ->
  1 <= x * Math.pow 10 k < 10 ->
  Math.ceil (- log10 x) = k.
Proof.
  intros Hx [Hlo Hhi]. rewrite scaled_exp in Hlo, Hhi by exact Hx.
  pose proof ln10_pos as H10.
  assert (Hge : 0 <= ln x + IZR k * ln 10).
  { destruct (Rle_dec 0 (ln x + IZR k * ln 10)) as [H | H]; [exact H |].
    exfalso. apply Rnot_le_lt in H. apply exp_increasing in H.
    rewrite exp_0 in H. lra. }
  assert (Hlt : ln x + IZR k * ln 10 < ln 10).
  { destruct (Rlt_dec (ln x + IZR k * ln 10) (ln 10)) as [H | H]; [exact H |].
    exfalso. apply Rnot_lt_le in H.
    assert (exp (ln 10) <= exp (ln x + IZR k * ln 10)).
    { destruct H as [H | H].
      - left. apply exp_increasing; exact H.
      - right. f_equal. exact H. }
    rewrite exp_ln in H0 by lra. lra. }
  unfold Math.ceil. apply Zceil_eq. unfold log10, Math.log.
  assert (E : - (ln x / ln 10) = - ln x * / ln 10) by (field; lra).
  rewrite E. split.
  - apply Rmult_lt_reg_r with (ln 10); [exact H10 |].
    rewrite Rmult_assoc, Rinv_l by lra. lra.
  - apply Rmult_le_reg_r with (ln 10); [exact H10 |].
    rewrite Rmult_assoc, Rinv_l by lra. lra.
Qed.

End Exponent.

Lemma getSignificand_fixed (x : R) : 1 <= x < 10 -> getSignificand x = x.
Proof.
  intros Hx. unfold getSignificand.
  assert (E : Math.pow 10 0 = 1) by reflexivity.
  rewrite (exponent_unique x 0); rewrite ?E; lra.
Qed.

(** In exact arithmetic [getSignificand] does what it is written for: it
    lands in [[1, 10)], and a power of ten gives [1]. *)
Lemma getSignificand_exact :
  (forall x : R, 0 < x -> 1 <= getSignificand x < 10) /\
  (forall n : Z, getSignificand (Math.pow 10 n) = 1).
Proof.
  split.
  - intros x Hx. unfold getSignificand. apply exponent_bounds; exact Hx.
  - intros n. unfold getSignificand.
    rewrite (exponent_unique (Math.pow 10 n) (- n)).
    + apply pow10_cancel.
    + apply pow10_pos.
    + rewrite pow10_cancel. lra.
Qed.

(** ** The snap-down step *)

Lemma snap_cases (r : R) :
  1 <= r < 10 ->
  (5 <= r /\ snap r = r / 5) \/
  (4 <= r < 5 /\ snap r = r / 4) \/
  (2 <= r < 4 /\ snap r = r / 2) \/
  (r < 2 /\ snap r = r).
Proof.
  intros [Hlo Hhi]. unfold snap.
  destruct (Rle_dec 5 r) as [H5 | H5].
  - left. split; [exact H5 |].
    destruct (Rle_dec 4 (r / 5)) as [H | _]; [exfalso; lra |].
    destruct (Rle_dec 2 (r / 5)) as [H | _]; [exfalso; lra | reflexivity].
  - right. destruct (Rle_dec 4 r) as [H4 | H4].
    + left. split; [lra |].
      destruct (Rle_dec 2 (r / 4)) as [H | _]; [exfalso; lra | reflexivity].
    + right. destruct (Rle_dec 2 r) as [H2 | H2].
      * left. split; [lra | reflexivity].
      * right. split; [lra | reflexivity].
Qed.

Lemma snap_bounds (r : R) : 1 <= r < 10 -> 1 <= snap r < 2.
Proof.
  intros Hr.
  destruct (snap_cases r Hr) as [[H E] | [[H E] | [[H E] | [H E]]]];
    rewrite E; lra.
Qed.

Lemma normalize_bounds (value minSize : R) :
  0 < value -> 0 < minSize -> 1 <= normalize value minSize < 2.
Proof.
  intros Hv Hm. unfold normalize. apply snap_bounds.
  pose proof (exponent_bounds value Hv) as Hs.
  pose proof (exponent_bounds minSize Hm) as Ht.
  fold (getSignificand value) in Hs. fold (getSignificand minSize) in Ht.
  unfold getSignificand at 1. apply exponent_bounds.
  apply Rdiv_lt_0_compat; lra.
Qed.

(** C4 (as amended).  The three sequential checks take every [r] in
    [[1, 10)] into [[1, 2)]: the result is [r / 5] when [r >= 5], [r / 4]
    when [4 <= r < 5], [r / 2] when [2 <= r < 4], and [r] itself when
    [r < 2]. *)
Theorem snap_down_range (r : R) :
  1 <= r < 10 ->
  1 <= snap r < 2 /\
  ((5 <= r /\ snap r = r / 5) \/
   (4 <= r < 5 /\ snap r = r / 4) \/
   (2 <= r < 4 /\ snap r = r / 2) \/
   (r < 2 /\ snap r = r)).
Proof.
  intros Hr. split; [apply snap_bounds | apply snap_cases]; exact Hr.
Qed.

Lemma snap_down_range_witness :
  1 <= 3 < 10 /\ 1 <= snap 3 < 2.
Proof.
  split; [lra | apply (snap_down_range 3); lra].
Defined.

(** C4 fails as stated: [r = 3] is reduced to [1.5], which is none of
    [1], [1.25], [2], [2.5]; [normalize 3 1] takes this path. *)
Lemma snap_down_not_in_set :
  1 <= 3 < 10 /\ snap 3 = 1.5 /\
  ~ (snap 3 = 1 \/ snap 3 = 1.25 \/ snap 3 = 2 \/ snap 3 = 2.5) /\
  normalize 3 1 = 1.5.
Proof.
  assert (E : snap 3 = 1.5).
  { destruct (snap_cases 3) as [[H _] | [[H _] | [[_ E] | [H _]]]]; try lra. }
  split; [lra |]. split; [exact E |]. split.
  - rewrite E. lra.
  - unfold normalize. rewrite (getSignificand_fixed 3), (getSignificand_fixed 1) by lra.
    replace (3 / 1) with 3 by lra.
    rewrite (getSignificand_fixed 3) by lra. exact E.
Qed.

(** C1.  For every [pixelsPerUnit > 0] and [minWidth > 0] the bar size
    computed by [getScalebarSizeAndText] and by
    [getScalebarSizeAndTextForMetric] is at least [minWidth] and less than
    [2 * minWidth]. *)
Theorem bar_size_between_min_and_double (ppm minSize : R)
    (unitSuffix : string) (handlePlural : option bool) (spacer : option string) :
  0 < ppm -> 0 < minSize ->
  (size (getScalebarSizeAndText ppm minSize unitSuffix handlePlural spacer)
   = normalize ppm minSize * minSize /\
   size (getScalebarSizeAndTextForMetric ppm minSize unitSuffix)
   = normalize ppm minSize * minSize) /\
  minSize
    <= size (getScalebarSizeAndText ppm minSize unitSuffix handlePlural spacer)
    < 2 * minSize /\
  minSize
    <= size (getScalebarSizeAndTextForMetric ppm minSize unitSuffix)
    < 2 * minSize.
Proof.
  intros Hp Hm. pose proof (normalize_bounds ppm minSize Hp Hm) as [Hlo Hhi].
  unfold getScalebarSizeAndText, getScalebarSizeAndTextForMetric. simpl.
  repeat split; try reflexivity; nra.
Qed.

Lemma bar_size_between_min_and_double_witness :
  150 <= size (ScalebarSizeAndTextRenderer.METRIC_LENGTH 2.5 150) < 2 * 150.
Proof.
  unfold ScalebarSizeAndTextRenderer.METRIC_LENGTH.
  apply (bar_size_between_min_and_double 2.5 150 "m" None None); lra.
Defined.

(** ** Metric prefixes *)

Lemma bucket_total (value : R) :
  0 < value -> exists b, spec_bucket_range b value.
Proof.
  intros Hpos.
  destruct (Rlt_dec value 0.000001); [exists Nano; simpl; lra |].
  destruct (Rlt_dec value 0.001); [exists Micro; simpl; lra |].
  destruct (Rlt_dec value 1); [exists Milli; simpl; lra |].
  destruct (Rlt_dec value 1000); [exists Base; simpl; lra |].
  exists Kilo; simpl; lra.
Qed.

Lemma bucket_disjoint (value : R) (b b' : MetricPrefix) :
  spec_bucket_range b value -> spec_bucket_range b' value -> b = b'.
Proof.
  destruct b, b'; simpl; intros H H'; try reflexivity; exfalso; lra.
Qed.

Lemma getWithUnit_bucket (value : R) (unitSuffix : string) (b : MetricPrefix) :
  spec_bucket_range b value ->
  getWithUnit value unitSuffix = spec_bucket_text b value unitSuffix.
Proof.
  unfold getWithUnit. destruct b; simpl; intros H;
    repeat (match goal with
            | |- context [Rlt_dec ?a ?c] => destruct (Rlt_dec a c)
            | |- context [Rle_dec ?a ?c] => destruct (Rle_dec a c)
            end; try (exfalso; lra)); try reflexivity.
  do 2 f_equal. lra.
Qed.

(** C3.  The prefix bucketing of [getWithUnit] partitions the positive
    numbers into five half-open ranges: for every [value > 0] exactly one of
    nano ([< 1e-6], times [1e9]), micro ([[1e-6, 1e-3)], times [1e6]), milli
    ([[1e-3, 1)], times [1e3]), base ([[1, 1000)]) and kilo ([>= 1000], times
    [1e-3]) applies, [getWithUnit] prints that one, and [1e-6] itself is
    micro, not nano. *)
Theorem metric_buckets_partition (value : R) (unitSuffix : string) :
  0 < value ->
  (exists b : MetricPrefix,
      spec_bucket_range b value /\
      (forall b', spec_bucket_range b' value -> b' = b) /\
      getWithUnit value unitSuffix = spec_bucket_text b value unitSuffix) /\
  getWithUnit 0.000001 unitSuffix
  = [Num (0.000001 * 1000000); Str " μ"; Str unitSuffix].
Proof.
  intros Hpos. split.
  - destruct (bucket_total value Hpos) as [b Hb]. exists b.
    split; [exact Hb |]. split.
    + intros b' Hb'. exact (bucket_disjoint value b' b Hb' Hb).
    + apply getWithUnit_bucket; exact Hb.
  - rewrite (getWithUnit_bucket 0.000001 unitSuffix Micro); [reflexivity |].
    simpl; lra.
Qed.

Lemma metric_buckets_partition_witness :
  getWithUnit 100 "m" = [Num 100; Str " "; Str "m"].
Proof.
  destruct (metric_buckets_partition 100 "m") as [[b [Hb [_ E]]] _]; [lra |].
  rewrite E. destruct b; simpl in Hb; try (exfalso; lra). reflexivity.
Defined.

(** ** The imperial ladder *)

Lemma imperial_ladder (ppm minSize : R) :
  0 < ppm ->
  let ppi := ppm * 0.0254 in
  let ppf := ppi * 12 in
  (2 * minSize < ppi ->
   ScalebarSizeAndTextRenderer.IMPERIAL_LENGTH ppm minSize
   = getScalebarSizeAndText (ppi / 1000) minSize "th" None None) /\
  (ppi <= 2 * minSize < ppi * 12 ->
   ScalebarSizeAndTextRenderer.IMPERIAL_LENGTH ppm minSize
   = getScalebarSizeAndText ppi minSize "in" None None) /\
  (ppf <= 2 * minSize < ppf * 2000 ->
   ScalebarSizeAndTextRenderer.IMPERIAL_LENGTH ppm minSize
   = getScalebarSizeAndText ppf minSize "ft" None None) /\
  (ppf * 2000 <= 2 * minSize ->
   ScalebarSizeAndTextRenderer.IMPERIAL_LENGTH ppm minSize
   = getScalebarSizeAndText (ppf * 5280) minSize "mi" None None).
Proof.
  intros Hp ppi ppf. unfold ScalebarSizeAndTextRenderer.IMPERIAL_LENGTH.
  fold ppi. fold ppf.
  assert (Hi : 0 < ppi) by (subst ppi; lra).
  repeat split; intros H; subst ppf;
    repeat (match goal with
            | |- context [Rlt_dec ?a ?c] => destruct (Rlt_dec a c)
            end; try (exfalso; lra)); reflexivity.
Qed.

(** C2 (as amended).  The imperial renderer walks thou, inch, foot, mile from
    finest to coarsest, comparing [maxSize = 2 * minSize] with the rate of the
    unit times a threshold: it picks thou below one inch, inch below twelve
    inches, and, for [ppm > 0] and [minSize > 0] with
    [2 * minSize >= (ppm * 0.0254) * 12], the foot (suffix ft) if and only if
    [2 * minSize < (ppm * 0.0254 * 12) * 2000], and the mile (suffix mi, rate
    [ppf * 5280]) otherwise. *)
Theorem imperial_foot_until_2000 (ppm minSize : R) :
  0 < ppm -> 0 < minSize ->
  let result := ScalebarSizeAndTextRenderer.IMPERIAL_LENGTH ppm minSize in
  (2 * minSize < ppm * 0.0254 ->
   result
   = getScalebarSizeAndText (ppm * 0.0254 / 1000) minSize "th" None None) /\
  (ppm * 0.0254 <= 2 * minSize < (ppm * 0.0254) * 12 ->
   result = getScalebarSizeAndText (ppm * 0.0254) minSize "in" None None) /\
  (2 * minSize >= (ppm * 0.0254) * 12 ->
   (unitOf result = Some "ft"%string
    <-> 2 * minSize < (ppm * 0.0254 * 12) * 2000) /\
   (2 * minSize < (ppm * 0.0254 * 12) * 2000 ->
    result
    = getScalebarSizeAndText (ppm * 0.0254 * 12) minSize "ft" None None) /\
   (~ 2 * minSize < (ppm * 0.0254 * 12) * 2000 ->
    unitOf result = Some "mi"%string /\
    result
    = getScalebarSizeAndText (ppm * 0.0254 * 12 * 5280) minSize "mi"
        None None)).
Proof.
  intros Hp Hm result.
  destruct (imperial_ladder ppm minSize Hp) as (Hth & Hin & Hft & Hmi).
  split; [exact Hth |]. split; [exact Hin |]. intros Hge.
  destruct (Rlt_dec (2 * minSize) (ppm * 0.0254 * 12 * 2000)) as [Hlt | Hnlt].
  - assert (E : result
                = getScalebarSizeAndText (ppm * 0.0254 * 12) minSize "ft"
                    None None) by (apply Hft; lra).
    split; [| split].
    + rewrite E. split; [intros _; exact Hlt | intros _; reflexivity].
    + intros _; exact E.
    + intros Hn; contradiction.
  - assert (E : result
                = getScalebarSizeAndText (ppm * 0.0254 * 12 * 5280) minSize "mi"
                    None None) by (apply Hmi; lra).
    split; [| split].
    + rewrite E. split; [intros Hu; discriminate Hu | intros Hlt; contradiction].
    + intros Hlt; contradiction.
    + intros _. split; [rewrite E; reflexivity | exact E].
Qed.

Lemma imperial_foot_until_2000_witness :
  unitOf (ScalebarSizeAndTextRenderer.IMPERIAL_LENGTH 1 10) = Some "ft"%string.
Proof.
  apply (imperial_foot_until_2000 1 10); lra.
Defined.

(** C2 fails as stated: with [ppm = 0.1] and [minSize = 50] the bar is at
    least one foot and below [5280] feet, yet the mile is chosen. *)
Lemma imperial_mile_below_5280 :
  0 < 0.1 /\ 0 < 50 /\
  2 * 50 >= (0.1 * 0.0254) * 12 /\
  2 * 50 < (0.1 * 0.0254 * 12) * 5280 /\
  unitOf (ScalebarSizeAndTextRenderer.IMPERIAL_LENGTH 0.1 50) = Some "mi"%string /\
  unitOf (ScalebarSizeAndTextRenderer.IMPERIAL_LENGTH 0.1 50) <> Some "ft"%string.
Proof.
  destruct (imperial_ladder 0.1 50) as (_ & _ & _ & Hmi); [lra |].
  assert (E : unitOf (ScalebarSizeAndTextRenderer.IMPERIAL_LENGTH 0.1 50)
              = Some "mi"%string) by (rewrite Hmi by lra; reflexivity).
  rewrite E. repeat split; try lra. discriminate.
Qed.

(** ** Rounding to significant digits *)

Section Rounding.

Lemma round_integer (n : Z) : Math.round (IZR n) = n.
Proof. unfold Math.round. apply Zfloor_eq. lra. Qed.

Lemma round_bounds (x : R) (lo hi : Z) :
  IZR lo <= x < IZR hi -> (lo <= Math.round x <= hi)%Z.
Proof.
  intros [Hlo Hhi]. unfold Math.round.
  pose proof (Zfloor_bound (x + / 2)) as [Hf Hc].
  split.
  - apply Zfloor_lub. lra.
  - assert (IZR (Zfloor (x + / 2)) < IZR (hi + 1)) by (rewrite plus_IZR; lra).
    apply lt_IZR in H. lia.
Qed.

(** Both branches of [roundSignificand] are the same real number. *)
Lemma roundSignificand_eq (x : R) (decimalPlaces : Z) :
  let power := (decimalPlaces + Math.ceil (- log10 x))%Z in
  roundSignificand x decimalPlaces
  = IZR (Math.round (x * Math.pow 10 power)) * Math.pow 10 (- power).
Proof.
  intros power. unfold roundSignificand.
  replace (decimalPlaces - - Math.ceil (- log10 x))%Z with power
    by (subst power; lia).
  destruct (power <? 0)%Z; [reflexivity |].
  rewrite pow10_neg. reflexivity.
Qed.

Lemma pow10_3 : Math.pow 10 3 = 1000.
Proof. unfold Math.pow. simpl. lra. Qed.

Lemma pow10_4 : Math.pow 10 4 = 10000.
Proof. unfold Math.pow. simpl. lra. Qed.

Lemma pow10_m3 : Math.pow 10 (- 3) = / 1000.
Proof. change (- 3)%Z with (- (3))%Z. rewrite pow10_neg, pow10_3. reflexivity. Qed.

Lemma pow10_m4 : Math.pow 10 (- 4) = / 10000.
Proof. change (- 4)%Z with (- (4))%Z. rewrite pow10_neg, pow10_4. reflexivity. Qed.

(** A number that already is [n] thousandths of its decade, once
    rescaled, is left alone. *)
Lemma roundSignificand_fixed (n k : Z) :
  (1000 <= n < 10000)%Z ->
  roundSignificand (IZR n * Math.pow 10 (- (3 + k))) 3
  = IZR n * Math.pow 10 (- (3 + k)).
Proof.
  intros [Hlo Hhi]. apply IZR_le in Hlo. apply IZR_lt in Hhi.
  set (y := IZR n * Math.pow 10 (- (3 + k))).
  assert (Hy : 0 < y).
  { unfold y. apply Rmult_lt_0_compat; [lra | apply pow10_pos]. }
  assert (Hs : y * Math.pow 10 k = IZR n / 1000).
  { unfold y. rewrite Rmult_assoc, <- pow10_add.
    replace (- (3 + k) + k)%Z with (- 3)%Z by lia.
    rewrite pow10_m3. reflexivity. }
  assert (Hk : Math.ceil (- log10 y) = k).
  { apply exponent_unique; [exact Hy |]. rewrite Hs. lra. }
  rewrite roundSignificand_eq. rewrite Hk.
  assert (Hn : y * Math.pow 10 (3 + k) = IZR n).
  { unfold y. rewrite Rmult_assoc, Rmult_comm with (r1 := Math.pow 10 (- (3 + k))).
    rewrite pow10_cancel. lra. }
  rewrite Hn, round_integer. reflexivity.
Qed.

Lemma roundSignificand_fixed_top (k : Z) :
  roundSignificand (10000 * Math.pow 10 (- (3 + k))) 3
  = 10000 * Math.pow 10 (- (3 + k)).
Proof.
  set (y := 10000 * Math.pow 10 (- (3 + k))).
  assert (Hy : 0 < y).
  { unfold y. apply Rmult_lt_0_compat; [lra | apply pow10_pos]. }
  assert (Hs : y * Math.pow 10 (k - 1) = 1).
  { unfold y. rewrite Rmult_assoc, <- pow10_add.
    replace (- (3 + k) + (k - 1))%Z with (- 4)%Z by lia.
    rewrite pow10_m4. lra. }
  assert (Hk : Math.ceil (- log10 y) = (k - 1)%Z).
  { apply exponent_unique; [exact Hy |]. rewrite Hs. lra. }
  rewrite roundSignificand_eq. rewrite Hk.
  replace (3 + (k - 1))%Z with ((k - 1) + 3)%Z by lia.
  rewrite pow10_add, <- Rmult_assoc, Hs, pow10_3, Rmult_1_l.
  rewrite round_integer.
  unfold y. replace (- (k - 1 + 3))%Z with (1 + - (3 + k))%Z by lia.
  rewrite pow10_add. unfold Math.pow at 1. simpl. lra.
Qed.

(** What one application yields: an integer number of thousandths between
    [1000] and [10000], scaled back. *)
Lemma roundSignificand_shape (x : R) :
  0 < x ->
  exists n k : Z,
    (1000 <= n <= 10000)%Z /\
    roundSignificand x 3 = IZR n * Math.pow 10 (- (3 + k)).
Proof.
  intros Hx. set (k := Math.ceil (- log10 x)).
  exists (Math.round (x * Math.pow 10 (3 + k))), k. split.
  - apply round_bounds.
    pose proof (exponent_bounds x Hx) as [Hlo Hhi]. fold k in Hlo, Hhi.
    rewrite pow10_add, pow10_3. split; nra.
  - rewrite roundSignificand_eq. fold k. reflexivity.
Qed.

End Rounding.

(** In exact arithmetic [roundSignificand] with three decimal places is
    idempotent: what the function is written for. *)
Lemma roundSignificand_idempotent_exact (x : R) :
  0 < x ->
  roundSignificand (roundSignificand x 3) 3 = roundSignificand x 3.
Proof.
  intros Hx. destruct (roundSignificand_shape x Hx) as (n & k & [Hlo Hhi] & E).
  rewrite E. destruct (Z.eq_dec n 10000%Z) as [-> | Hne].
  - apply roundSignificand_fixed_top.
  - apply roundSignificand_fixed. lia.
Qed.

(** ** Placement *)

(** C7.  At the bottom right anchor with [stayInsideImage] false the position
    is the container corner minus the overlay extent minus the offsets; with
    offsets [5], a [400 x 300] container and a [100 x 20] overlay it is the
    point [(295, 275)]. *)
Theorem bottom_right_without_clamping (this : Scalebar) :
  location this = ScalebarLocation.BOTTOM_RIGHT ->
  stayInsideImage this = false ->
  getScalebarLocation this
  = Some (Point.new
            (containerOffsetWidth (viewer this) - offsetWidth (divElt this)
             - xOffset this)
            (containerOffsetHeight (viewer this) - offsetHeight (divElt this)
             - yOffset this)) /\
  (xOffset this = 5 -> yOffset this = 5 ->
   containerOffsetWidth (viewer this) = 400 ->
   containerOffsetHeight (viewer this) = 300 ->
   offsetWidth (divElt this) = 100 -> offsetHeight (divElt this) = 20 ->
   getScalebarLocation this = Some (Point.new 295 275)).
Proof.
  intros Hloc Hstay. unfold getScalebarLocation. rewrite Hloc, Hstay.
  split; [reflexivity |].
  intros -> -> -> -> -> ->. do 2 f_equal; lra.
Qed.

Lemma bottom_right_without_clamping_witness :
  getScalebarLocation example4 = Some (Point.new 295 275).
Proof.
  apply (bottom_right_without_clamping example4); reflexivity.
Defined.

(** C8.  With [stayInsideImage] true and the horizontal wrap flag set, the
    horizontal clamp is skipped at every anchor: the [x] returned is the
    unclamped container-edge [x] plus or minus the offset, whatever the
    viewport transform reports, so two runs whose transforms differ only in
    the [x] they produce return the same point; the vertical clamp still
    applies when the vertical wrap flag is unset.  Symmetrically for the
    vertical wrap flag and [y]. *)
Theorem wrap_flag_skips_clamp (this : Scalebar) (f g : Point.t -> Point.t) :
  stayInsideImage this = true ->
  (wrapHorizontal (viewer this) = true ->
   Point.x <$> getScalebarLocation (withTransform f this)
   = spec_unclamped_x this /\
   Point.x <$> getScalebarLocation (withTransform f this)
   = Point.x <$> getScalebarLocation (withTransform g this) /\
   ((forall p, Point.y (f p) = Point.y (g p)) ->
    getScalebarLocation (withTransform f this)
    = getScalebarLocation (withTransform g this)) /\
   (wrapVertical (viewer this) = false ->
    Point.y <$> getScalebarLocation (withTransform f this)
    = spec_clamped_y f this)) /\
  (wrapVertical (viewer this) = true ->
   Point.y <$> getScalebarLocation (withTransform f this)
   = spec_unclamped_y this /\
   Point.y <$> getScalebarLocation (withTransform f this)
   = Point.y <$> getScalebarLocation (withTransform g this) /\
   ((forall p, Point.x (f p) = Point.x (g p)) ->
    getScalebarLocation (withTransform f this)
    = getScalebarLocation (withTransform g this)) /\
   (wrapHorizontal (viewer this) = false ->
    Point.x <$> getScalebarLocation (withTransform f this)
    = spec_clamped_x f this)).
Proof.
  intros Hstay.
  unfold getScalebarLocation, spec_unclamped_x, spec_unclamped_y,
    spec_clamped_x, spec_clamped_y, spec_content_corner, withTransform,
    Math.max, Math.min.
  cbn [viewer divElt location xOffset yOffset stayInsideImage
       pixelFromPoint wrapHorizontal wrapVertical containerOffsetWidth
       containerOffsetHeight aspectRatio].
  rewrite Hstay.
  split; intros Hwrap; rewrite Hwrap; cbn [negb].
  - destruct (location this); cbn [fmap option_fmap option_map Point.x Point.y];
      (split; [reflexivity |]); (split; [reflexivity |]);
      (split; [intros Hy; rewrite ?Hy; reflexivity |]);
      intros Hv; rewrite ?Hv; cbn [negb fmap option_fmap option_map Point.y];
      try reflexivity; f_equal; f_equal; apply Rmax_comm.
  - destruct (location this); cbn [fmap option_fmap option_map Point.x Point.y];
      (split; [reflexivity |]); (split; [reflexivity |]);
      (split; [intros Hx; rewrite ?Hx; reflexivity |]);
      intros Hh; rewrite ?Hh; cbn [negb fmap option_fmap option_map Point.x];
      try reflexivity; f_equal; f_equal; apply Rmax_comm.
Qed.

Lemma wrap_flag_skips_clamp_witness :
  Point.x <$> getScalebarLocation
                (withTransform (fun _ => Point.new 0 0) example5)
  = Some (400 - 100 - 5).
Proof.
  destruct (wrap_flag_skips_clamp example5 (fun _ => Point.new 0 0)
              (fun p => p) eq_refl) as [H _].
  destruct (H eq_refl) as [E _]. exact E.
Defined.

(** ** Reconfiguration and refresh *)

Section Frame.

(** Fields a method leaves alone are read off the assignment. *)
Lemma assignIfTruthy_frame {A B : Type} `{Truthy A} (field : Scalebar -> B)
    (o : option A) (set : A -> Scalebar -> Scalebar) (this : Scalebar) :
  (forall a s, field (set a s) = field s) ->
  field (assignIfTruthy o set this) = field this.
Proof.
  intros Hset. unfold assignIfTruthy.
  destruct o as [a |]; [destruct (truthy a) |]; auto.
Qed.

Lemma setMinWidth_drawScalebar (w : string) (this : Scalebar) :
  drawScalebar (fst (setMinWidth w this)) = drawScalebar this.
Proof. reflexivity. Qed.

Lemma updateOptions_drawScalebar (options : option ScalebarOptions)
    (this : Scalebar) :
  drawScalebar (updateOptions options this) = drawScalebar this.
Proof.
  unfold updateOptions. destruct options as [o |]; [| reflexivity].
  cbv zeta.
  assert (H0 : forall s : Scalebar,
             drawScalebar
               match o_type o with
               | Some ty => if truthy ty then s else s
               | None => s
               end = drawScalebar s).
  { intros s. destruct (o_type o) as [ty |]; [destruct (truthy ty) |];
      reflexivity. }
  assert (H1 : forall s : Scalebar,
             drawScalebar
               match o_minWidth o with
               | Some w => if truthy w then fst (setMinWidth w s) else s
               | None => s
               end = drawScalebar s).
  { intros s. destruct (o_minWidth o) as [w |]; [destruct (truthy w) |];
      reflexivity. }
  destruct (o_sizeAndTextRenderer o) as [r |];
    cbn [set_sizeAndTextRenderer drawScalebar];
    repeat (rewrite assignIfTruthy_frame by reflexivity);
    rewrite H1, H0; reflexivity.
Qed.

Lemma callDrawScalebar_drawScalebar (sz : R) (tx : Text) (this : Scalebar) :
  drawScalebar (callDrawScalebar sz tx this) = drawScalebar this.
Proof.
  unfold callDrawScalebar. destruct (drawScalebar this) eqn:E;
    cbn; try rewrite E; reflexivity.
Qed.

End Frame.

(** C10.  [updateOptions] never changes the [drawScalebar] field, whatever
    the options: the function that [setDrawScalebarFunction] returns for
    [options.type] is dropped.  The field is set by the constructor from
    [options.type || MICROSCOPY] and no method assigns it afterwards, so
    [refresh] keeps it as well. *)
Theorem updateOptions_keeps_drawScalebar :
  (forall (options : option ScalebarOptions) (this : Scalebar),
      drawScalebar (updateOptions options this) = drawScalebar this) /\
  (forall (options : option ScalebarOptions) (this after : Scalebar),
      refresh options this = Normal after ->
      drawScalebar after = drawScalebar this) /\
  (forall box (options : ScalebarOptions) (this : Scalebar),
      constructor box (Some options) = Normal this ->
      drawScalebar this
      = setDrawScalebarFunction (orElse (o_type options) MICROSCOPY)).
Proof.
  split; [exact updateOptions_drawScalebar |]. split.
  - intros options this after. unfold refresh. cbv zeta.
    pose proof (updateOptions_drawScalebar options this) as Hu.
    set (s := updateOptions options this) in *.
    destruct (negb (isOpen (viewer s)) || negb (truthy (drawScalebar s))
              || negb (truthy (pixelsPerMeter s))
              || negb (truthy (location s))).
    + intros [= <-]. exact Hu.
    + cbn [viewer referenceItemIdx set_divElt].
      destruct (worldItems (viewer s) !! referenceItemIdx s) as [img |];
        [| discriminate].
      match goal with
      | |- context [getScalebarLocation ?t] =>
          destruct (getScalebarLocation t)
      end; intros [= <-]; cbn [set_divElt drawScalebar];
        rewrite callDrawScalebar_drawScalebar; exact Hu.
  - intros box options this. unfold constructor.
    destruct (o_viewer options); [| discriminate].
    intros [= <-]. reflexivity.
Qed.

Lemma updateOptions_keeps_drawScalebar_witness :
  drawScalebar
    (updateOptions
       (Some (mkOptions None (Some MAP) None None None None None None None
                None None None None None None None))
       example4)
  = DrawMicroscopyScalebar /\
  drawScalebar (set_pixelsPerMeter None example4) = DrawMicroscopyScalebar.
Proof.
  destruct updateOptions_keeps_drawScalebar as (Hupdate & Hrefresh & _).
  split.
  - rewrite Hupdate. reflexivity.
  - rewrite <- (Hrefresh None (set_pixelsPerMeter None example4)
                  (set_divElt
                     (setStyle "display" (lit "none") (divElt example4))
                     (set_pixelsPerMeter None example4)));
      reflexivity.
Defined.

Section Refresh.

Lemma truthy_number_nonzero (n : R) : n <> 0 -> truthy n = true.
Proof.
  intros Hn. unfold truthy, truthy_number.
  destruct (Req_dec_T n 0); [contradiction | reflexivity].
Qed.

Lemma callDrawScalebar_display (sz : R) (tx : Text) (this : Scalebar) :
  style (divElt (callDrawScalebar sz tx this)) !! "display"%string
  = style (divElt this) !! "display"%string.
Proof.
  unfold callDrawScalebar, drawMapScalebar, drawMicroscopyScalebar.
  destruct (drawScalebar this); cbn [divElt set_divElt setStyle setInnerHTML style];
    rewrite ?lookup_insert_ne by done; reflexivity.
Qed.

Lemma callDrawScalebar_drawn (sz : R) (tx : Text) (this : Scalebar) :
  drawScalebar this <> DrawNothing ->
  style (divElt (callDrawScalebar sz tx this)) !! "width"%string
  = Some [Num sz; Str "px"] /\
  innerHTML (divElt (callDrawScalebar sz tx this)) = tx.
Proof.
  intros Hd.
  unfold callDrawScalebar, drawMapScalebar, drawMicroscopyScalebar.
  destruct (drawScalebar this); [| | contradiction];
    cbn [divElt set_divElt setStyle setInnerHTML style innerHTML];
    rewrite lookup_insert_eq; split; reflexivity.
Qed.

Lemma getScalebarLocation_some (this : Scalebar) :
  truthy (location this) = true ->
  exists p, getScalebarLocation this = Some p.
Proof.
  unfold getScalebarLocation.
  destruct (location this); [discriminate | | | |]; intros _;
    destruct (stayInsideImage this); eexists; reflexivity.
Qed.

(** Past the guard, with the reference item present, [refresh] shows the
    element and draws what the renderer returns for the instance's
    [minWidth]. *)
Lemma refresh_runs (options : option ScalebarOptions) (this : Scalebar)
    (img : TiledImage) :
  let s := updateOptions options this in
  isOpen (viewer s) = true ->
  truthy (pixelsPerMeter s) = true ->
  truthy (location s) = true ->
  worldItems (viewer s) !! referenceItemIdx s = Some img ->
  exists after,
    refresh options this = Normal after /\
    style (divElt after) !! "display"%string = Some (lit "") /\
    (drawScalebar s <> DrawNothing ->
     let props :=
       sizeAndTextRenderer s
         (tiledImageViewportToImageZoom img (getZoom (viewer s))
          * toNumber (pixelsPerMeter s))
         (minWidth s) in
     style (divElt after) !! "width"%string = Some [Num (size props); Str "px"]
     /\ innerHTML (divElt after) = text props).
Proof.
  intros s Hopen Hppm Hloc Himg. unfold refresh. cbv zeta. fold s.
  rewrite Hopen, Hppm, Hloc. cbn [negb orb truthy truthy_function].
  set (s1 := set_divElt (setStyle "display" (lit "") (divElt s)) s).
  change (worldItems (viewer s1) !! referenceItemIdx s1)
    with (worldItems (viewer s) !! referenceItemIdx s).
  rewrite Himg.
  set (props := sizeAndTextRenderer s1 _ _).
  assert (Hl : truthy (location (callDrawScalebar (size props) (text props) s1))
               = true).
  { unfold callDrawScalebar. destruct (drawScalebar s1); exact Hloc. }
  destruct (getScalebarLocation_some _ Hl) as [p Hp]. rewrite Hp.
  eexists. split; [reflexivity |].
  cbn [divElt set_divElt setStyle style innerHTML]. split.
  - rewrite !lookup_insert_ne by done. rewrite callDrawScalebar_display.
    unfold s1. cbn [divElt setStyle style]. apply lookup_insert_eq.
  - intros Hd. rewrite !lookup_insert_ne by done.
    apply callDrawScalebar_drawn. exact Hd.
Qed.

Lemma refresh_hides (options : option ScalebarOptions) (this : Scalebar) :
  let s := updateOptions options this in
  negb (isOpen (viewer s)) || negb (truthy (pixelsPerMeter s))
  || negb (truthy (location s)) = true ->
  refresh options this
  = Normal (set_divElt (setStyle "display" (lit "none") (divElt s)) s).
Proof.
  intros s Hg. unfold refresh. cbv zeta. fold s.
  replace (negb (isOpen (viewer s)) || negb (truthy (drawScalebar s))
           || negb (truthy (pixelsPerMeter s))
           || negb (truthy (location s))) with true; [reflexivity |].
  symmetry. cbn [truthy truthy_function negb] in *.
  destruct (isOpen (viewer s)), (truthy (pixelsPerMeter s)),
    (truthy (location s)); cbn in *; congruence.
Qed.

Lemma constructor_zeroWidth :
  constructor zeroBox (Some zeroWidthOptions) = Normal zeroWidthScalebar.
Proof.
  unfold constructor, zeroWidthOptions, zeroWidthScalebar.
  cbn [o_viewer o_minWidth o_type o_color o_fontColor o_backgroundColor
       o_fontSize o_fontFamily o_barThickness o_pixelsPerMeter
       o_referenceItemIdx o_location o_xOffset o_yOffset o_stayInsideImage
       o_sizeAndTextRenderer orElse truthy truthy_string].
  rewrite truthy_number_nonzero by lra.
  reflexivity.
Qed.

End Refresh.

(** C5 (as amended).  [refresh] disables the overlay (hides the element and
    returns, without computing size, text or position and without raising)
    when the viewer is not open or the calibration constant [pixelsPerMeter]
    or the location is missing or zero.  The minimum bar width is not
    tested: otherwise, with the reference item present, the element is shown
    and drawn from what the renderer returns for the instance's [minWidth],
    whatever its sign. *)
Theorem refresh_disabled_by_guard (options : option ScalebarOptions)
    (this : Scalebar) :
  let s := updateOptions options this in
  let disabled :=
    negb (isOpen (viewer s)) || negb (truthy (pixelsPerMeter s))
    || negb (truthy (location s)) in
  (disabled = true ->
   refresh options this
   = Normal (set_divElt (setStyle "display" (lit "none") (divElt s)) s)) /\
  (disabled = false ->
   forall img, worldItems (viewer s) !! referenceItemIdx s = Some img ->
   exists after,
     refresh options this = Normal after /\
     style (divElt after) !! "display"%string = Some (lit "") /\
     (drawScalebar s <> DrawNothing ->
      let props :=
        sizeAndTextRenderer s
          (tiledImageViewportToImageZoom img (getZoom (viewer s))
           * toNumber (pixelsPerMeter s))
          (minWidth s) in
      style (divElt after) !! "width"%string = Some [Num (size props); Str "px"]
      /\ innerHTML (divElt after) = text props)).
Proof.
  intros s disabled. split.
  - apply refresh_hides.
  - intros Hd img Himg. subst disabled.
    apply orb_false_elim in Hd as [Hd Hloc].
    apply orb_false_elim in Hd as [Hopen Hppm].
    apply negb_false_iff in Hloc, Hopen, Hppm.
    apply refresh_runs; assumption.
Qed.

Lemma refresh_disabled_by_guard_witness :
  refresh None (set_pixelsPerMeter None example4)
  = Normal
      (set_divElt
         (setStyle "display" (lit "none") (divElt example4))
         (set_pixelsPerMeter None example4)).
Proof.
  apply (refresh_disabled_by_guard None (set_pixelsPerMeter None example4)).
  reflexivity.
Defined.

(** C5 fails as stated: an instance built with [minWidth: "0px"] has minimum
    width [0], and [refresh] on it shows the element and draws the bar. *)
Lemma refresh_runs_with_zero_minWidth :
  constructor zeroBox (Some zeroWidthOptions) = Normal zeroWidthScalebar /\
  minWidth zeroWidthScalebar <= 0 /\
  refresh None zeroWidthScalebar
  <> Normal
       (set_divElt
          (setStyle "display" (lit "none") (divElt zeroWidthScalebar))
          zeroWidthScalebar) /\
  exists after,
    refresh None zeroWidthScalebar = Normal after /\
    style (divElt after) !! "display"%string = Some (lit "") /\
    style (divElt after) !! "width"%string
    = Some [Num (size (ScalebarSizeAndTextRenderer.METRIC_LENGTH
                         (1 * 400 / 400 * 1 * 1) 0));
            Str "px"].
Proof.
  split; [exact constructor_zeroWidth |]. split; [simpl; lra |].
  destruct (refresh_runs None zeroWidthScalebar (mkTiledImage 1 400 400))
    as (after & Hr & Hdisp & Hdraw);
    try reflexivity.
  { apply truthy_number_nonzero. lra. }
  split.
  - rewrite Hr. intros [= E]. rewrite E in Hdisp.
    cbn [divElt set_divElt setStyle style] in Hdisp.
    rewrite lookup_insert_eq in Hdisp. discriminate Hdisp.
  - exists after. split; [exact Hr |]. split; [exact Hdisp |].
    apply Hdraw. discriminate.
Qed.

(** ** The significand on doubles *)

(** C6, on the running code.  In binary64 arithmetic the quotient
    [Math.log(1000) / Math.log(10)] rounds to [2.9999999999999996], below
    [3]; [Math.ceil] of its negation is [-2], and [getSignificand(1000)] is
    [1000 * 10^-2 = 10]: not [1], and outside [[1, 10)].  The values of
    [Math.log] at [1000] and [10] and of [Math.pow(10, -2)] are the correctly
    rounded ones. *)
Theorem getSignificand_1000_on_doubles
    (Math_log : float -> float) (Math_pow : float -> Z -> float) :
  Math_log 1000%float = 0x1.ba18a998fffa0p+2%float ->
  Math_log 10%float = 0x1.26bb1bbb55516p+1%float ->
  Math_pow 10%float (- 2)%Z = 0x1.47ae147ae147bp-7%float ->
  Doubles.log10_double Math_log 1000%float = 0x1.7ffffffffffffp+1%float /\
  Doubles.ceil (- Doubles.log10_double Math_log 1000%float)%float = (- 2)%Z /\
  Doubles.getSignificand_double Math_log Math_pow 1000%float = 10%float.
Proof.
  intros Hlog1000 Hlog10 Hpow.
  assert (Hq : Doubles.log10_double Math_log 1000%float
               = 0x1.7ffffffffffffp+1%float).
  { unfold Doubles.log10_double. rewrite Hlog1000, Hlog10. reflexivity. }
  assert (Hc : Doubles.ceil (- Doubles.log10_double Math_log 1000%float)%float
               = (- 2)%Z).
  { rewrite Hq. reflexivity. }
  split; [exact Hq |]. split; [exact Hc |].
  unfold Doubles.getSignificand_double. rewrite Hc, Hpow. reflexivity.
Qed.

Lemma getSignificand_1000_on_doubles_witness :
  Doubles.getSignificand_double
    (fun x => if PrimFloat.eqb x 10%float
              then 0x1.26bb1bbb55516p+1%float
              else 0x1.ba18a998fffa0p+2%float)
    (fun _ _ => 0x1.47ae147ae147bp-7%float)
    1000%float
  = 10%float.
Proof.
  apply (getSignificand_1000_on_doubles
           (fun x => if PrimFloat.eqb x 10%float
                     then 0x1.26bb1bbb55516p+1%float
                     else 0x1.ba18a998fffa0p+2%float)
           (fun _ _ => 0x1.47ae147ae147bp-7%float));
    reflexivity.
Defined.

(** ** Rounding twice on doubles *)

(** C9, on the running code.  In binary64 arithmetic [roundSignificand] with
    three decimal places is not idempotent at [x = 1.0001e27].  The first
    application has exponent [27] and returns [1000 * 10^24 = 1e27].  For
    that double [Math.log(1e27) / Math.log(10)] rounds to
    [26.999999999999996], below [27], so the second application takes
    exponent [26], rounds [1e27 * 10^-23] to [10000] and returns
    [10000 * Math.pow(10, 23)], a neighbour of [1e27] and not [1e27]
    itself, whichever of the two doubles next to [10^23] [Math.pow] gives.
    The logarithms and the other powers are the correctly rounded values. *)
Theorem roundSignificand_twice_on_doubles
    (Math_log : float -> float) (Math_pow : float -> Z -> float) :
  Math_log 0x1.9da1b4d14c30cp+89%float = 0x1.f15bf3393a05fp+5%float ->
  Math_log 0x1.9d971e4fe8402p+89%float = 0x1.f15bbecc1ff94p+5%float ->
  Math_log 10%float = 0x1.26bb1bbb55516p+1%float ->
  Math_pow 10%float (- 24)%Z = 0x1.357c299a88ea7p-80%float ->
  Math_pow 10%float 24%Z = 0x1.a784379d99db4p+79%float ->
  Math_pow 10%float (- 23)%Z = 0x1.82db34012b251p-77%float ->
  Math_pow 10%float 23%Z = 0x1.52d02c7e14af6p+76%float \/
  Math_pow 10%float 23%Z = 0x1.52d02c7e14af7p+76%float ->
  let f := DoublesRounding.roundSignificand_double Math_log Math_pow in
  f 0x1.9da1b4d14c30cp+89%float 3%Z = 0x1.9d971e4fe8402p+89%float /\
  (f (f 0x1.9da1b4d14c30cp+89%float 3%Z) 3%Z = 0x1.9d971e4fe8401p+89%float \/
   f (f 0x1.9da1b4d14c30cp+89%float 3%Z) 3%Z = 0x1.9d971e4fe8403p+89%float) /\
  f (f 0x1.9da1b4d14c30cp+89%float 3%Z) 3%Z
  <> f 0x1.9da1b4d14c30cp+89%float 3%Z.
Proof.
  intros Hlogx Hlogy Hlog10 Hm24 Hp24 Hm23 Hp23 f.
  assert (Hfirst : f 0x1.9da1b4d14c30cp+89%float 3%Z
                   = 0x1.9d971e4fe8402p+89%float).
  { unfold f, DoublesRounding.roundSignificand_double, Doubles.log10_double.
    rewrite Hlogx, Hlog10.
    change (- Doubles.ceil
                (- (0x1.f15bf3393a05fp+5 / 0x1.26bb1bbb55516p+1))%float)%Z
      with 27%Z.
    change (3 - 27)%Z with (- 24)%Z. cbv zeta.
    change (- 24 <? 0)%Z with true. cbv iota.
    change (- - 24)%Z with 24%Z. rewrite Hm24, Hp24. reflexivity. }
  assert (Hsecond :
            f 0x1.9d971e4fe8402p+89%float 3%Z
            = (DoublesRounding.ofInteger 10000 * Math_pow 10 23%Z)%float).
  { unfold f, DoublesRounding.roundSignificand_double, Doubles.log10_double.
    rewrite Hlogy, Hlog10.
    change (- Doubles.ceil
                (- (0x1.f15bbecc1ff94p+5 / 0x1.26bb1bbb55516p+1))%float)%Z
      with 26%Z.
    change (3 - 26)%Z with (- 23)%Z. cbv zeta.
    change (- 23 <? 0)%Z with true. cbv iota.
    change (- - 23)%Z with 23%Z. rewrite Hm23. reflexivity. }
  split; [exact Hfirst |]. rewrite Hfirst, Hsecond.
  destruct Hp23 as [-> | ->].
  - split; [left; reflexivity |].
    intros H. vm_compute in H. discriminate H.
  - split; [right; reflexivity |].
    intros H. vm_compute in H. discriminate H.
Qed.

Lemma roundSignificand_twice_on_doubles_witness :
  let f :=
    DoublesRounding.roundSignificand_double
      (fun x =>
         if PrimFloat.eqb x 10%float then 0x1.26bb1bbb55516p+1%float
         else if PrimFloat.eqb x 0x1.9d971e4fe8402p+89%float
              then 0x1.f15bbecc1ff94p+5%float
              else 0x1.f15bf3393a05fp+5%float)
      (fun _ e =>
         if (e =? - 24)%Z then 0x1.357c299a88ea7p-80%float
         else if (e =? 24)%Z then 0x1.a784379d99db4p+79%float
              else if (e =? - 23)%Z then 0x1.82db34012b251p-77%float
                   else 0x1.52d02c7e14af7p+76%float) in
  f (f 0x1.9da1b4d14c30cp+89%float 3%Z) 3%Z
  <> f 0x1.9da1b4d14c30cp+89%float 3%Z.
Proof.
  apply (roundSignificand_twice_on_doubles
           (fun x =>
              if PrimFloat.eqb x 10%float then 0x1.26bb1bbb55516p+1%float
              else if PrimFloat.eqb x 0x1.9d971e4fe8402p+89%float
                   then 0x1.f15bbecc1ff94p+5%float
                   else 0x1.f15bf3393a05fp+5%float)
           (fun _ e =>
              if (e =? - 24)%Z then 0x1.357c299a88ea7p-80%float
              else if (e =? 24)%Z then 0x1.a784379d99db4p+79%float
                   else if (e =? - 23)%Z then 0x1.82db34012b251p-77%float
                        else 0x1.52d02c7e14af7p+76%float));
    first [reflexivity | right; reflexivity].
Defined.

(** * Further properties of the code *)

(** ** Powers of ten and round lengths *)

Section Decades.

(** The length the bar stands for, [normalize ppm minSize / ppm * minSize],
    is a power of ten divided by the divisor the snap step used. *)
Lemma round_length (ppm minSize : R) :
  0 < ppm -> 0 < minSize ->
  exists (n : Z) (q : R),
    (q = 1 \/ q = 2 \/ q = 4 \/ q = 5) /\
    normalize ppm minSize / ppm * minSize = Math.pow 10 n / q.
Proof.
  intros Hp Hm. unfold normalize.
  set (a := Math.ceil (- log10 ppm)). set (b := Math.ceil (- log10 minSize)).
  assert (Ea : getSignificand ppm = ppm * Math.pow 10 a) by reflexivity.
  assert (Eb : getSignificand minSize = minSize * Math.pow 10 b) by reflexivity.
  pose proof (pow10_pos a) as Ha. pose proof (pow10_pos b) as Hb.
  set (ratio := getSignificand ppm / getSignificand minSize).
  assert (Hratio : 0 < ratio).
  { unfold ratio. rewrite Ea, Eb. apply Rdiv_lt_0_compat; nra. }
  set (c := Math.ceil (- log10 ratio)).
  assert (Ec : getSignificand ratio = ratio * Math.pow 10 c) by reflexivity.
  pose proof (pow10_pos c) as Hc.
  pose proof (exponent_bounds ratio Hratio) as Hr. fold c in Hr.
  rewrite <- Ec in Hr.
  assert (Epow : Math.pow 10 (a + c - b)
                 = Math.pow 10 a * Math.pow 10 c / Math.pow 10 b).
  { replace (a + c - b)%Z with (a + c + - b)%Z by lia.
    rewrite !pow10_add, pow10_neg. reflexivity. }
  assert (Elen : forall q, q <> 0 ->
             getSignificand ratio / q / ppm * minSize
             = Math.pow 10 (a + c - b) / q).
  { intros q Hq. rewrite Epow, Ec. unfold ratio. rewrite Ea, Eb.
    field. repeat split; lra. }
  exists (a + c - b)%Z.
  destruct (snap_cases _ Hr) as [[_ E] | [[_ E] | [[_ E] | [_ E]]]]; rewrite E.
  - exists 5. split; [tauto | apply Elen; lra].
  - exists 4. split; [tauto | apply Elen; lra].
  - exists 2. split; [tauto | apply Elen; lra].
  - exists 1. split; [tauto |].
    rewrite <- (Elen 1) by lra. field. lra.
Qed.

(** Such a length has at most two significant digits, so rounding it to
    three decimal places of its significand returns it. *)
Lemma roundSignificand_round_length (n : Z) (q : R) :
  q = 1 \/ q = 2 \/ q = 4 \/ q = 5 ->
  roundSignificand (Math.pow 10 n / q) 3 = Math.pow 10 n / q.
Proof.
  assert (E10 : Math.pow 10 1 = 10) by (unfold Math.pow; simpl; lra).
  assert (Em3 : Math.pow 10 n = 1000 * Math.pow 10 (- (3 + - n))).
  { replace (- (3 + - n))%Z with (- (3) + n)%Z by lia.
    rewrite pow10_add. change (Math.pow 10 (- (3))) with (Math.pow 10 (- 3)).
    rewrite pow10_m3. field. }
  assert (Em4 : Math.pow 10 n = 10000 * Math.pow 10 (- (3 + (1 - n)))).
  { replace (- (3 + (1 - n)))%Z with (- (4) + n)%Z by lia.
    rewrite pow10_add. change (Math.pow 10 (- (4))) with (Math.pow 10 (- 4)).
    rewrite pow10_m4. field. }
  intros [-> | [-> | [-> | ->]]].
  - replace (Math.pow 10 n / 1) with (1000 * Math.pow 10 (- (3 + - n)))
      by (rewrite <- Em3; field).
    apply (roundSignificand_fixed 1000). lia.
  - replace (Math.pow 10 n / 2) with (5000 * Math.pow 10 (- (3 + (1 - n))))
      by (rewrite Em4; field).
    apply (roundSignificand_fixed 5000). lia.
  - replace (Math.pow 10 n / 4) with (2500 * Math.pow 10 (- (3 + (1 - n))))
      by (rewrite Em4; field).
    apply (roundSignificand_fixed 2500). lia.
  - replace (Math.pow 10 n / 5) with (2000 * Math.pow 10 (- (3 + (1 - n))))
      by (rewrite Em4; field).
    apply (roundSignificand_fixed 2000). lia.
Qed.

(** The factor both size-and-text functions compute. *)
Lemma factor_round_length (ppm minSize : R) :
  0 < ppm -> 0 < minSize ->
  exists (n : Z) (q : R),
    (q = 1 \/ q = 2 \/ q = 4 \/ q = 5) /\
    roundSignificand (normalize ppm minSize / ppm * minSize) 3
    = Math.pow 10 n / q /\
    Math.pow 10 n / q * ppm = normalize ppm minSize * minSize.
Proof.
  intros Hp Hm. destruct (round_length ppm minSize Hp Hm) as (n & q & Hq & E).
  exists n, q. split; [exact Hq |]. rewrite E. split.
  - apply roundSignificand_round_length; exact Hq.
  - rewrite <- E. field. lra.
Qed.

End Decades.

(** X2.  The length a bar stands for is round: for positive [ppm] and
    [minSize], [normalize ppm minSize / ppm * minSize] is [10^n / q] for an
    integer [n] and [q] one of [1], [2], [4], [5], that is [1], [5], [2.5]
    or [2] times a power of ten. *)
Theorem bar_length_is_round (ppm minSize : R) :
  0 < ppm -> 0 < minSize ->
  exists (n : Z) (q : R),
    (q = 1 \/ q = 2 \/ q = 4 \/ q = 5) /\
    normalize ppm minSize / ppm * minSize = Math.pow 10 n / q.
Proof. exact (round_length ppm minSize). Qed.

Lemma bar_length_is_round_witness :
  exists (n : Z) (q : R),
    (q = 1 \/ q = 2 \/ q = 4 \/ q = 5) /\
    normalize 2.5 150 / 2.5 * 150 = Math.pow 10 n / q.
Proof.
  apply (bar_length_is_round 2.5 150); lra.
Defined.

(** X3.  The label agrees with the bar: for positive [ppm] and [minSize] the
    number [getScalebarSizeAndText] prints, times [ppm], is the bar size to
    within one part in [2000] (the three decimal places [roundSignificand]
    keeps); the plural [s] is appended exactly when plurals are asked for
    and the printed number exceeds [1].
    [getScalebarSizeAndTextForMetric] hands the same number to
    [getWithUnit]. *)
Theorem label_matches_bar (ppm minSize : R) (unitSuffix : string)
    (handlePlural : option bool) (spacer : option string) :
  0 < ppm -> 0 < minSize ->
  exists f : R,
    let result :=
      getScalebarSizeAndText ppm minSize unitSuffix handlePlural spacer in
    factorOf (text result) = Some f /\
    Rabs (f * ppm - size result) <= size result / 2000 /\
    (pluralOf result = Some "s"%string
     <-> handlePlural = Some true /\ 1 < f) /\
    text (getScalebarSizeAndTextForMetric ppm minSize unitSuffix)
    = getWithUnit f unitSuffix.
Proof.
  intros Hp Hm.
  destruct (factor_round_length ppm minSize Hp Hm) as (n & q & Hq & Ef & Es).
  pose proof (normalize_bounds ppm minSize Hp Hm) as Hn.
  exists (Math.pow 10 n / q).
  unfold getScalebarSizeAndText, getScalebarSizeAndTextForMetric, pluralOf.
  cbn [size text factorOf]. rewrite Ef.
  split; [reflexivity |]. split; [| split; [| reflexivity]].
  - rewrite Es, Rminus_diag, Rabs_R0. nra.
  - destruct handlePlural as [[|] |].
    + destruct (Rlt_dec 1 (Math.pow 10 n / q)) as [Hgt | Hle].
      * split; [intros _; split; [reflexivity | exact Hgt] | reflexivity].
      * split; [intros [= H] | intros [_ H]; contradiction].
    + split; [intros [= H] | intros [[= H] _]].
    + split; [intros [= H] | intros [[= H] _]].
Qed.

Lemma label_matches_bar_witness :
  exists f : R,
    factorOf (text (getScalebarSizeAndText 2.5 150 "minute" (Some true) None))
    = Some f /\
    Rabs (f * 2.5
          - size (getScalebarSizeAndText 2.5 150 "minute" (Some true) None))
    <= size (getScalebarSizeAndText 2.5 150 "minute" (Some true) None) / 2000.
Proof.
  destruct (label_matches_bar 2.5 150 "minute" (Some true) None)
    as (f & Hf & Hb & _); [lra | lra |].
  exists f. split; [exact Hf | exact Hb].
Defined.

(** ** Rounding error and printed numbers *)

(** X4.  [roundSignificand] moves a positive number by at most half a unit
    of its last kept decimal: for every [x > 0] and every [decimalPlaces],
    [|roundSignificand x decimalPlaces - x| <= x / (2 * 10^decimalPlaces)];
    with three decimal places the relative error is at most [1/2000]. *)
Theorem roundSignificand_error (x : R) (decimalPlaces : Z) :
  0 < x ->
  Rabs (roundSignificand x decimalPlaces - x)
  <= x / (2 * Math.pow 10 decimalPlaces).
Proof.
  intros Hx. rewrite roundSignificand_eq. cbv zeta.
  set (k := Math.ceil (- log10 x)). set (p := (decimalPlaces + k)%Z).
  set (s := x * Math.pow 10 p).
  pose proof (pow10_pos p) as Hp. pose proof (pow10_pos (- p)) as Hmp.
  pose proof (pow10_pos k) as Hk. pose proof (pow10_pos decimalPlaces) as Hd.
  pose proof (pow10_cancel p) as Hcancel.
  assert (Hround : - / 2 <= IZR (Math.round s) - s <= / 2).
  { unfold Math.round. pose proof (Zfloor_bound (s + / 2)). lra. }
  assert (Ex : x = s * Math.pow 10 (- p)).
  { unfold s. rewrite Rmult_assoc, Hcancel. lra. }
  assert (Ediff : IZR (Math.round s) * Math.pow 10 (- p) - x
                  = (IZR (Math.round s) - s) * Math.pow 10 (- p)).
  { rewrite Ex at 1. ring. }
  rewrite Ediff.
  assert (Hsmall : Rabs ((IZR (Math.round s) - s) * Math.pow 10 (- p))
                   <= / 2 * Math.pow 10 (- p)).
  { rewrite Rabs_mult, (Rabs_pos_eq (Math.pow 10 (- p))) by lra.
    apply Rmult_le_compat_r; [lra |]. apply Rabs_le. lra. }
  eapply Rle_trans; [exact Hsmall |].
  pose proof (exponent_bounds x Hx) as [Hlo _]. fold k in Hlo.
  assert (Epow : Math.pow 10 (- p)
                 = / Math.pow 10 decimalPlaces * / Math.pow 10 k).
  { unfold p. rewrite pow10_neg, pow10_add. field. lra. }
  rewrite Epow.
  assert (Hinv : / Math.pow 10 k <= x).
  { apply Rmult_le_reg_r with (Math.pow 10 k); [exact Hk |].
    rewrite Rinv_l by lra. exact Hlo. }
  assert (Hid : 0 < / Math.pow 10 decimalPlaces) by (apply Rinv_0_lt_compat; lra).
  replace (x / (2 * Math.pow 10 decimalPlaces))
    with (/ 2 * (/ Math.pow 10 decimalPlaces * x)) by (field; lra).
  apply Rmult_le_compat_l; [lra |].
  apply Rmult_le_compat_l; [lra | exact Hinv].
Qed.

Lemma roundSignificand_error_witness :
  Rabs (roundSignificand 1234.5678 3 - 1234.5678)
  <= 1234.5678 / (2 * Math.pow 10 3).
Proof.
  apply (roundSignificand_error 1234.5678 3). lra.
Defined.

(** X5.  Between one nano-unit and a thousand kilo-units [getWithUnit]
    prints a number from [1] up to, not including, [1000]: for
    [1e-9 <= value < 1e6] the text starts with a number in [[1, 1000)]. *)
Theorem getWithUnit_number_range (value : R) (unitSuffix : string) :
  0.000000001 <= value < 1000000 ->
  exists n : R,
    factorOf (getWithUnit value unitSuffix) = Some n /\ 1 <= n < 1000.
Proof.
  intros [Hlo Hhi]. unfold getWithUnit.
  destruct (Rlt_dec value 0.000001);
    [eexists; split; [reflexivity | lra] |].
  destruct (Rlt_dec value 0.001);
    [eexists; split; [reflexivity | lra] |].
  destruct (Rlt_dec value 1);
    [eexists; split; [reflexivity | lra] |].
  destruct (Rle_dec 1000 value);
    eexists; (split; [reflexivity | lra]).
Qed.

Lemma getWithUnit_number_range_witness :
  exists n : R, factorOf (getWithUnit 0.00025 "m") = Some n /\ 1 <= n < 1000.
Proof.
  apply (getWithUnit_number_range 0.00025 "m"). lra.
Defined.

(** ** The other unit ladders *)

Section Ladders.

(** The number printed for a unit whose rate is [rate]. *)
Lemma label_bounds (rate minSize : R) (unitSuffix : string)
    (handlePlural : option bool) (spacer : option string) :
  0 < rate -> 0 < minSize ->
  exists f : R,
    factorOf (text (getScalebarSizeAndText rate minSize unitSuffix
                      handlePlural spacer)) = Some f /\
    minSize <= f * rate < 2 * minSize /\
    (pluralOf (getScalebarSizeAndText rate minSize unitSuffix
                 handlePlural spacer) = Some "s"%string
     <-> handlePlural = Some true /\ 1 < f).
Proof.
  intros Hr Hm.
  destruct (factor_round_length rate minSize Hr Hm) as (n & q & Hq & Ef & Es).
  pose proof (normalize_bounds rate minSize Hr Hm) as Hn.
  exists (Math.pow 10 n / q).
  unfold getScalebarSizeAndText, pluralOf. cbn [size text factorOf].
  rewrite Ef. split; [reflexivity |]. split; [rewrite Es; nra |].
  destruct handlePlural as [[|] |].
  - destruct (Rlt_dec 1 (Math.pow 10 n / q)) as [Hgt | Hle].
    + split; [intros _; split; [reflexivity | exact Hgt] | reflexivity].
    + split; [intros [= H] | intros [_ H]; contradiction].
  - split; [intros [= H] | intros [[= H] _]].
  - split; [intros [= H] | intros [[= H] _]].
Qed.

(** A unit reached by stepping up prints at least one half, and less than
    [bound] when the next step was not taken. *)
Lemma coarse_label (rate minSize bound : R) (unitSuffix : string)
    (handlePlural : option bool) (spacer : option string) :
  0 < rate -> 0 < minSize -> rate <= 2 * minSize ->
  exists f : R,
    factorOf (text (getScalebarSizeAndText rate minSize unitSuffix
                      handlePlural spacer)) = Some f /\
    / 2 <= f /\
    (2 * minSize < rate * bound -> f < bound) /\
    (pluralOf (getScalebarSizeAndText rate minSize unitSuffix
                 handlePlural spacer) = Some "s"%string
     <-> handlePlural = Some true /\ 1 < f).
Proof.
  intros Hr Hm Hstep.
  destruct (label_bounds rate minSize unitSuffix handlePlural spacer Hr Hm)
    as (f & Ef & [Hlo Hhi] & Hpl).
  exists f. split; [exact Ef |]. split; [nra |]. split; [| exact Hpl].
  intros Hb. apply Rmult_lt_reg_r with rate; [exact Hr |]. nra.
Qed.

End Ladders.

(** X6.  The astronomy renderer picks arcseconds while [2 * minSize] is
    below sixty arcseconds, arcminutes while it is below sixty arcminutes,
    and degrees from there on.  The number printed in arcminutes is at least
    one half and below [60], in degrees at least one half.  The text never
    has a spacer or a plural. *)
Theorem astronomy_ladder (ppa minSize : R) :
  0 < ppa -> 0 < minSize ->
  let result := ScalebarSizeAndTextRenderer.ASTRONOMY ppa minSize in
  (2 * minSize < ppa * 60 ->
   result
   = getScalebarSizeAndText ppa minSize (String "034"%char EmptyString)
       (Some false) (Some ""%string)) /\
  (ppa * 60 <= 2 * minSize < ppa * 60 * 60 ->
   result
   = getScalebarSizeAndText (ppa * 60) minSize "'" (Some false)
       (Some ""%string) /\
   exists f, factorOf (text result) = Some f /\ / 2 <= f < 60) /\
  (ppa * 60 * 60 <= 2 * minSize ->
   result
   = getScalebarSizeAndText (ppa * 60 * 60) minSize "&#176" (Some false)
       (Some ""%string) /\
   exists f, factorOf (text result) = Some f /\ / 2 <= f) /\
  exists f u, text result = [Num f; Str ""; Str u; Str ""].
Proof.
  intros Hp Hm result. subst result.
  unfold ScalebarSizeAndTextRenderer.ASTRONOMY. cbv zeta.
  destruct (Rlt_dec (minSize * 2) (ppa * 60)) as [H1 | H1];
    [| destruct (Rlt_dec (minSize * 2) (ppa * 60 * 60)) as [H2 | H2]].
  - split; [intros _; reflexivity |].
    split; [intros H; exfalso; lra |]. split; [intros H; exfalso; lra |].
    eexists _, _. reflexivity.
  - split; [intros H; exfalso; lra |]. split; [| split].
    + intros _. split; [reflexivity |].
      destruct (coarse_label (ppa * 60) minSize 60 "'" (Some false)
                  (Some ""%string)) as (f & Ef & Hlo & Hhi & _); try lra.
      exists f. split; [exact Ef |]. split; [exact Hlo | apply Hhi; lra].
    + intros H; exfalso; lra.
    + eexists _, _. reflexivity.
  - split; [intros H; exfalso; lra |]. split; [intros H; exfalso; lra |].
    split.
    + intros _. split; [reflexivity |].
      destruct (coarse_label (ppa * 60 * 60) minSize 1 "&#176" (Some false)
                  (Some ""%string)) as (f & Ef & Hlo & _); try lra.
      exists f. split; [exact Ef | exact Hlo].
    + eexists _, _. reflexivity.
Qed.

Lemma astronomy_ladder_witness :
  ScalebarSizeAndTextRenderer.ASTRONOMY 10 100
  = getScalebarSizeAndText 10 100 (String "034"%char EmptyString)
      (Some false) (Some ""%string).
Proof.
  apply (astronomy_ladder 10 100); lra.
Defined.

(** X7.  The time renderer keeps seconds (with metric prefixes) while
    [2 * minSize] is below a minute, then steps to minutes, hours, days and
    years, each kept while [2 * minSize] is below [60] minutes, [24] hours,
    [365.25] days.  In seconds the number handed to [getWithUnit] is below
    [60]; in the coarser units the number printed is at least one half and
    below [60], [24], [365.25] (no upper limit for years), and the unit name
    gets its [s] exactly when the number exceeds [1]. *)
Theorem standard_time_ladder (pps minSize : R) :
  0 < pps -> 0 < minSize ->
  let result := ScalebarSizeAndTextRenderer.STANDARD_TIME pps minSize in
  (2 * minSize < pps * 60 ->
   result = getScalebarSizeAndTextForMetric pps minSize "s" /\
   exists f, text result = getWithUnit f "s" /\ f < 60) /\
  (pps * 60 <= 2 * minSize < pps * 60 * 60 ->
   result = getScalebarSizeAndText (pps * 60) minSize "minute" (Some true) None
   /\ exists f, factorOf (text result) = Some f /\ / 2 <= f < 60 /\
                (pluralOf result = Some "s"%string <-> 1 < f)) /\
  (pps * 60 * 60 <= 2 * minSize < pps * 60 * 60 * 24 ->
   result
   = getScalebarSizeAndText (pps * 60 * 60) minSize "hour" (Some true) None
   /\ exists f, factorOf (text result) = Some f /\ / 2 <= f < 24 /\
                (pluralOf result = Some "s"%string <-> 1 < f)) /\
  (pps * 60 * 60 * 24 <= 2 * minSize < pps * 60 * 60 * 24 * 365.25 ->
   result
   = getScalebarSizeAndText (pps * 60 * 60 * 24) minSize "day" (Some true) None
   /\ exists f, factorOf (text result) = Some f /\ / 2 <= f < 365.25 /\
                (pluralOf result = Some "s"%string <-> 1 < f)) /\
  (pps * 60 * 60 * 24 * 365.25 <= 2 * minSize ->
   result
   = getScalebarSizeAndText (pps * 60 * 60 * 24 * 365.25) minSize "year"
       (Some true) None
   /\ exists f, factorOf (text result) = Some f /\ / 2 <= f /\
                (pluralOf result = Some "s"%string <-> 1 < f)).
Proof.
  intros Hp Hm result. subst result.
  unfold ScalebarSizeAndTextRenderer.STANDARD_TIME. cbv zeta.
  assert (Hcoarse : forall rate bound u,
             0 < rate -> rate <= 2 * minSize ->
             exists f,
               factorOf (text (getScalebarSizeAndText rate minSize u
                                 (Some true) None)) = Some f /\
               / 2 <= f /\
               (2 * minSize < rate * bound -> f < bound) /\
               (pluralOf (getScalebarSizeAndText rate minSize u
                            (Some true) None) = Some "s"%string <-> 1 < f)).
  { intros rate bound u Hr Hstep.
    destruct (coarse_label rate minSize bound u (Some true) None Hr Hm Hstep)
      as (f & Ef & Hlo & Hhi & Hpl).
    exists f. split; [exact Ef |]. split; [exact Hlo |]. split; [exact Hhi |].
    rewrite Hpl. split; [intros [_ H]; exact H | intros H; split; [reflexivity | exact H]]. }
  destruct (Rlt_dec (minSize * 2) (pps * 60)) as [H1 | H1];
    [| destruct (Rlt_dec (minSize * 2) (pps * 60 * 60)) as [H2 | H2];
       [| destruct (Rlt_dec (minSize * 2) (pps * 60 * 60 * 24)) as [H3 | H3];
          [| destruct (Rlt_dec (minSize * 2) (pps * 60 * 60 * 24 * 365.25))
               as [H4 | H4]]]].
  - split; [| repeat split; intros; exfalso; lra].
    intros _. split; [reflexivity |].
    destruct (factor_round_length pps minSize Hp Hm) as (n & q & _ & Ef & Es).
    pose proof (normalize_bounds pps minSize Hp Hm) as Hn.
    exists (Math.pow 10 n / q).
    unfold getScalebarSizeAndTextForMetric. cbn [text]. rewrite Ef.
    split; [reflexivity |].
    apply Rmult_lt_reg_r with pps; [exact Hp |]. rewrite Es. nra.
  - split; [intros H; exfalso; lra |].
    split; [| repeat split; intros; exfalso; lra].
    intros _. split; [reflexivity |].
    destruct (Hcoarse (pps * 60) 60 "minute"%string) as (f & Ef & Hlo & Hhi & Hpl);
      try lra.
    exists f. repeat split; try assumption; try apply Hpl. apply Hhi; lra.
  - split; [intros H; exfalso; lra |]. split; [intros H; exfalso; lra |].
    split; [| repeat split; intros; exfalso; lra].
    intros _. split; [reflexivity |].
    destruct (Hcoarse (pps * 60 * 60) 24 "hour"%string)
      as (f & Ef & Hlo & Hhi & Hpl); try lra.
    exists f. repeat split; try assumption; try apply Hpl. apply Hhi; lra.
  - split; [intros H; exfalso; lra |]. split; [intros H; exfalso; lra |].
    split; [intros H; exfalso; lra |].
    split; [| intros H; exfalso; lra].
    intros _. split; [reflexivity |].
    destruct (Hcoarse (pps * 60 * 60 * 24) 365.25 "day"%string)
      as (f & Ef & Hlo & Hhi & Hpl); try lra.
    exists f. repeat split; try assumption; try apply Hpl. apply Hhi; lra.
  - split; [intros H; exfalso; lra |]. split; [intros H; exfalso; lra |].
    split; [intros H; exfalso; lra |]. split; [intros H; exfalso; lra |].
    intros _. split; [reflexivity |].
    destruct (Hcoarse (pps * 60 * 60 * 24 * 365.25) 1 "year"%string)
      as (f & Ef & Hlo & _ & Hpl); try lra.
    exists f. repeat split; try assumption; apply Hpl.
Qed.

Lemma standard_time_ladder_witness :
  ScalebarSizeAndTextRenderer.STANDARD_TIME 1 200
  = getScalebarSizeAndText (1 * 60) 200 "minute" (Some true) None.
Proof.
  apply (standard_time_ladder 1 200); lra.
Defined.

(** ** Reconfiguration, field by field *)

Section Fields.

Lemma assignIfTruthy_hit {A : Type} `{Truthy A} (field : Scalebar -> A)
    (o : option A) (set : A -> Scalebar -> Scalebar) (this : Scalebar) :
  (forall a s, field (set a s) = a) ->
  field (assignIfTruthy o set this) = orElse o (field this).
Proof.
  intros Hset. unfold assignIfTruthy, orElse.
  destruct o as [a |]; [destruct (truthy a) |]; auto.
Qed.

Lemma type_step_frame {B : Type} (field : Scalebar -> B)
    (o : ScalebarOptions) (s : Scalebar) :
  field match o_type o with
        | Some ty => if truthy ty then s else s
        | None => s
        end = field s.
Proof.
  destruct (o_type o) as [ty |]; [destruct (truthy ty) |]; reflexivity.
Qed.

Lemma minWidth_step_frame {B : Type} (field : Scalebar -> B)
    (o : ScalebarOptions) (s : Scalebar) :
  (forall w t, field (fst (setMinWidth w t)) = field t) ->
  field match o_minWidth o with
        | Some w => if truthy w then fst (setMinWidth w s) else s
        | None => s
        end = field s.
Proof.
  intros Hw. destruct (o_minWidth o) as [w |]; [destruct (truthy w) |]; auto.
Qed.

Ltac frames :=
  repeat (rewrite assignIfTruthy_frame by reflexivity).

Ltac untouched :=
  frames; rewrite minWidth_step_frame by reflexivity;
  rewrite type_step_frame; reflexivity.

Ltac assigned :=
  frames; rewrite assignIfTruthy_hit by reflexivity; f_equal; untouched.

Lemma updateOptions_fields (o : ScalebarOptions) (this : Scalebar) :
  let after := updateOptions (Some o) this in
  (viewer after = viewer this /\
   minWidth after = minWidth this /\
   drawScalebar after = drawScalebar this) /\
  (color after = orElse (o_color o) (color this) /\
   fontColor after = orElse (o_fontColor o) (fontColor this) /\
   backgroundColor after
   = orElse (o_backgroundColor o) (backgroundColor this) /\
   fontSize after = orElse (o_fontSize o) (fontSize this) /\
   fontFamily after = orElse (o_fontFamily o) (fontFamily this)) /\
  (barThickness after = orElse (o_barThickness o) (barThickness this) /\
   referenceItemIdx after
   = orElse (o_referenceItemIdx o) (referenceItemIdx this) /\
   location after = orElse (o_location o) (location this) /\
   xOffset after = orElse (o_xOffset o) (xOffset this) /\
   yOffset after = orElse (o_yOffset o) (yOffset this) /\
   stayInsideImage after
   = orElse (o_stayInsideImage o) (stayInsideImage this)) /\
  pixelsPerMeter after
  = match o_pixelsPerMeter o with
    | Some v => if truthy v then Some v else pixelsPerMeter this
    | None => pixelsPerMeter this
    end /\
  sizeAndTextRenderer after
  = match o_sizeAndTextRenderer o with
    | Some f => f
    | None => sizeAndTextRenderer this
    end /\
  divElt after
  = match o_minWidth o with
    | Some w =>
        if truthy w
        then setStyle "display" (lit "") (setStyle "width" (lit w) (divElt this))
        else divElt this
    | None => divElt this
    end.
Proof.
  intros after. subst after. unfold updateOptions. cbv zeta.
  repeat split;
    destruct (o_sizeAndTextRenderer o) as [r |];
    cbn [set_sizeAndTextRenderer viewer divElt minWidth drawScalebar color
         fontColor backgroundColor fontSize fontFamily barThickness
         pixelsPerMeter referenceItemIdx location xOffset yOffset
         stayInsideImage sizeAndTextRenderer];
    try reflexivity; try untouched; try assigned.
  - (* pixelsPerMeter, renderer given *)
    frames. unfold assignIfTruthy at 1.
    destruct (o_pixelsPerMeter o) as [v |]; [destruct (truthy v) |];
      try reflexivity; untouched.
  - frames. unfold assignIfTruthy at 1.
    destruct (o_pixelsPerMeter o) as [v |]; [destruct (truthy v) |];
      try reflexivity; untouched.
  - frames.
    destruct (o_minWidth o) as [w |]; [destruct (truthy w) |];
      cbn [setMinWidth fst set_divElt divElt]; rewrite type_step_frame;
      reflexivity.
  - frames.
    destruct (o_minWidth o) as [w |]; [destruct (truthy w) |];
      cbn [setMinWidth fst set_divElt divElt]; rewrite type_step_frame;
      reflexivity.
Qed.

End Fields.

(** X8.  [updateOptions] acts field by field: each assignable field becomes
    [options.field || the current value], so a missing, zero, empty or
    [NONE] option leaves the field as it was.  The fields [viewer],
    [drawScalebar] and [minWidth] are never written, the last not even when
    [options.minWidth] is given: then only the element's width and display
    styles change. *)
Theorem updateOptions_field_by_field (o : ScalebarOptions) (this : Scalebar) :
  let after := updateOptions (Some o) this in
  (viewer after = viewer this /\
   minWidth after = minWidth this /\
   drawScalebar after = drawScalebar this) /\
  (color after = orElse (o_color o) (color this) /\
   fontColor after = orElse (o_fontColor o) (fontColor this) /\
   backgroundColor after
   = orElse (o_backgroundColor o) (backgroundColor this) /\
   fontSize after = orElse (o_fontSize o) (fontSize this) /\
   fontFamily after = orElse (o_fontFamily o) (fontFamily this)) /\
  (barThickness after = orElse (o_barThickness o) (barThickness this) /\
   referenceItemIdx after
   = orElse (o_referenceItemIdx o) (referenceItemIdx this) /\
   location after = orElse (o_location o) (location this) /\
   xOffset after = orElse (o_xOffset o) (xOffset this) /\
   yOffset after = orElse (o_yOffset o) (yOffset this) /\
   stayInsideImage after
   = orElse (o_stayInsideImage o) (stayInsideImage this)) /\
  pixelsPerMeter after
  = match o_pixelsPerMeter o with
    | Some v => if truthy v then Some v else pixelsPerMeter this
    | None => pixelsPerMeter this
    end /\
  sizeAndTextRenderer after
  = match o_sizeAndTextRenderer o with
    | Some f => f
    | None => sizeAndTextRenderer this
    end /\
  divElt after
  = match o_minWidth o with
    | Some w =>
        if truthy w
        then setStyle "display" (lit "") (setStyle "width" (lit w) (divElt this))
        else divElt this
    | None => divElt this
    end.
Proof. exact (updateOptions_fields o this). Qed.

(** ** What reconfiguration cannot undo, and what always holds *)

Section Invariant.

Lemma truthy_number_iff (n : R) : truthy n = true <-> n <> 0.
Proof.
  unfold truthy, truthy_number. destruct (Req_dec_T n 0); split; intros H;
    try discriminate; try contradiction; auto.
Qed.

Lemma truthy_location_iff (l : ScalebarLocation) :
  truthy l = true <-> l <> ScalebarLocation.NONE.
Proof.
  destruct l; cbn; split; intros H; try discriminate; try congruence; auto.
Qed.

Lemma orElse_truthy {A : Type} `{Truthy A} (o : option A) (d : A) :
  truthy d = true -> truthy (orElse o d) = true.
Proof.
  intros Hd. unfold orElse. destruct o as [a |]; [| exact Hd].
  destruct (truthy a) eqn:E; [exact E | exact Hd].
Qed.

Lemma updateOptions_truthy (options : option ScalebarOptions)
    (this : Scalebar) :
  (truthy (stayInsideImage this) = true ->
   truthy (stayInsideImage (updateOptions options this)) = true) /\
  (truthy (pixelsPerMeter this) = true ->
   truthy (pixelsPerMeter (updateOptions options this)) = true) /\
  (truthy (location this) = true ->
   truthy (location (updateOptions options this)) = true) /\
  (truthy (xOffset this) = true ->
   truthy (xOffset (updateOptions options this)) = true) /\
  (truthy (yOffset this) = true ->
   truthy (yOffset (updateOptions options this)) = true) /\
  (truthy (barThickness this) = true ->
   truthy (barThickness (updateOptions options this)) = true) /\
  (pixelsPerMeter this <> Some 0 ->
   pixelsPerMeter (updateOptions options this) <> Some 0).
Proof.
  destruct options as [o |]; [| cbn [updateOptions]; tauto].
  destruct (updateOptions_fields o this)
    as (_ & _ & (Hb & _ & Hl & Hx & Hy & Hs) & Hp & _).
  rewrite Hb, Hl, Hx, Hy, Hs, Hp.
  repeat split; try apply orElse_truthy.
  - destruct (o_pixelsPerMeter o) as [v |]; [| auto].
    destruct (truthy v) eqn:E; [intros _; exact E | auto].
  - intros Hn. destruct (o_pixelsPerMeter o) as [v |]; [| exact Hn].
    destruct (truthy v) eqn:E; [| exact Hn].
    intros [= ->]. apply truthy_number_iff in E. contradiction.
Qed.

Lemma constructor_configured box (options : option ScalebarOptions)
    (this : Scalebar) :
  constructor box options = Normal this -> configured this.
Proof.
  unfold constructor. cbv zeta.
  set (o := match options with Some o => o | None => _ end).
  destruct (o_viewer o); [| discriminate]. intros [= <-].
  unfold configured.
  cbn [location drawScalebar xOffset yOffset barThickness pixelsPerMeter].
  assert (H5 : truthy (5 : R) = true) by (apply truthy_number_iff; lra).
  assert (H2 : truthy (2 : R) = true) by (apply truthy_number_iff; lra).
  repeat split.
  - apply truthy_location_iff, orElse_truthy. reflexivity.
  - assert (Ht : truthy (orElse (o_type o) MICROSCOPY) = true)
      by (apply orElse_truthy; reflexivity).
    destruct (orElse (o_type o) MICROSCOPY); [discriminate Ht | |]; discriminate.
  - apply truthy_number_iff, orElse_truthy, H5.
  - apply truthy_number_iff, orElse_truthy, H5.
  - apply truthy_number_iff, orElse_truthy, H2.
  - destruct (o_pixelsPerMeter o) as [v |]; [| discriminate].
    destruct (truthy v) eqn:E; [| discriminate].
    intros [= ->]. apply truthy_number_iff in E. contradiction.
Qed.

Lemma updateOptions_configured (options : option ScalebarOptions)
    (this : Scalebar) :
  configured this -> configured (updateOptions options this).
Proof.
  intros (Hl & Hd & Hx & Hy & Hb & Hp).
  destruct (updateOptions_truthy options this)
    as (_ & _ & Hl' & Hx' & Hy' & Hb' & Hp').
  unfold configured. rewrite updateOptions_drawScalebar.
  rewrite <- truthy_location_iff, <- !truthy_number_iff in *.
  repeat split; auto.
Qed.

(** [refresh] writes the element only. *)
Lemma refresh_element_only (options : option ScalebarOptions)
    (this after : Scalebar) :
  refresh options this = Normal after ->
  after = set_divElt (divElt after) (updateOptions options this).
Proof.
  unfold refresh. cbv zeta. set (s := updateOptions options this).
  destruct (negb (isOpen (viewer s)) || negb (truthy (drawScalebar s))
            || negb (truthy (pixelsPerMeter s)) || negb (truthy (location s))).
  - intros [= <-]. reflexivity.
  - cbn [viewer referenceItemIdx set_divElt].
    destruct (worldItems (viewer s) !! referenceItemIdx s) as [img |];
      [| discriminate].
    match goal with
    | |- context [getScalebarLocation ?t] => destruct (getScalebarLocation t)
    end; intros [= <-]; unfold callDrawScalebar;
      cbn [drawScalebar set_divElt]; destruct (drawScalebar s); reflexivity.
Qed.

Lemma refresh_configured (options : option ScalebarOptions)
    (this after : Scalebar) :
  configured this -> refresh options this = Normal after -> configured after.
Proof.
  intros Hc Hr. apply (updateOptions_configured options) in Hc.
  rewrite (refresh_element_only _ _ _ Hr). exact Hc.
Qed.

End Invariant.

(** X9.  Falsy options are ignored, so [updateOptions] cannot switch
    anything off: [stayInsideImage] once true stays true, a calibration
    constant once set stays set (and non-zero), a location stays a
    location, and offsets and bar thickness never become zero. *)
Theorem updateOptions_cannot_clear (options : option ScalebarOptions)
    (this : Scalebar) :
  (stayInsideImage this = true ->
   stayInsideImage (updateOptions options this) = true) /\
  (truthy (pixelsPerMeter this) = true ->
   truthy (pixelsPerMeter (updateOptions options this)) = true) /\
  (location this <> ScalebarLocation.NONE ->
   location (updateOptions options this) <> ScalebarLocation.NONE) /\
  (xOffset this <> 0 -> xOffset (updateOptions options this) <> 0) /\
  (yOffset this <> 0 -> yOffset (updateOptions options this) <> 0) /\
  (barThickness this <> 0 -> barThickness (updateOptions options this) <> 0).
Proof.
  destruct (updateOptions_truthy options this)
    as (Hs & Hp & Hl & Hx & Hy & Hb & _).
  rewrite <- !truthy_location_iff, <- !truthy_number_iff.
  repeat split; assumption.
Qed.

Lemma updateOptions_cannot_clear_witness :
  stayInsideImage
    (updateOptions
       (Some (mkOptions None None (Some 0) None None
                (Some ScalebarLocation.NONE) (Some 0) None (Some false) None
                None None None None None None))
       example5)
  = true.
Proof.
  apply (updateOptions_cannot_clear
           (Some (mkOptions None None (Some 0) None None
                    (Some ScalebarLocation.NONE) (Some 0) None (Some false)
                    None None None None None None None))
           example5).
  reflexivity.
Defined.

(** X10.  Every instance the constructor returns is configured (it has a
    location and a drawing function, non-zero offsets and bar thickness, and
    a calibration constant that is missing or non-zero: [NONE] as type or
    location, or a zero offset, falls back to the default), [updateOptions]
    and [refresh] keep it so, and for a configured instance
    [getScalebarLocation] always returns a point. *)
Theorem configured_is_invariant :
  (forall box (options : option ScalebarOptions) (this : Scalebar),
      constructor box options = Normal this -> configured this) /\
  (forall (options : option ScalebarOptions) (this : Scalebar),
      configured this -> configured (updateOptions options this)) /\
  (forall (options : option ScalebarOptions) (this after : Scalebar),
      configured this -> refresh options this = Normal after ->
      configured after) /\
  (forall this : Scalebar,
      configured this -> exists p, getScalebarLocation this = Some p).
Proof.
  split; [exact constructor_configured |].
  split; [exact updateOptions_configured |].
  split; [exact refresh_configured |].
  intros this (Hl & _). apply getScalebarLocation_some.
  apply truthy_location_iff. exact Hl.
Qed.

Lemma configured_is_invariant_witness :
  configured zeroWidthScalebar /\
  configured (updateOptions (Some zeroWidthOptions) zeroWidthScalebar) /\
  exists p, getScalebarLocation zeroWidthScalebar = Some p.
Proof.
  destruct configured_is_invariant as (Hc & Hu & _ & Hl).
  assert (H : configured zeroWidthScalebar).
  { apply (Hc zeroBox (Some zeroWidthOptions)). apply constructor_zeroWidth. }
  split; [exact H |]. split; [apply Hu; exact H | apply Hl; exact H].
Defined.

(** X11.  The constructor throws exactly when no viewer is given, with the
    message "A viewer must be specified."; otherwise it returns an instance
    bound to that viewer whose [minWidth] is the measured width of its
    element. *)
Theorem constructor_throws_iff_no_viewer box
    (options : option ScalebarOptions) :
  (constructor box options = Throw "A viewer must be specified."
   <-> options ≫= o_viewer = None) /\
  (forall v, options ≫= o_viewer = Some v ->
   exists this,
     constructor box options = Normal this /\
     viewer this = v /\ minWidth this = offsetWidth (divElt this)).
Proof.
  unfold constructor. cbv zeta.
  destruct options as [o |]; cbn [mbind option_bind o_viewer].
  - destruct (o_viewer o) as [v |]; split.
    + split; intros H; discriminate H.
    + intros v' [= <-]. eexists. split; [reflexivity |]. split; reflexivity.
    + split; reflexivity.
    + intros v' H; discriminate H.
  - split; [split; reflexivity | intros v H; discriminate H].
Qed.

Lemma constructor_throws_iff_no_viewer_witness :
  exists this,
    constructor zeroBox (Some zeroWidthOptions) = Normal this /\
    viewer this = exampleViewer /\ minWidth this = offsetWidth (divElt this).
Proof.
  apply (constructor_throws_iff_no_viewer zeroBox (Some zeroWidthOptions)).
  reflexivity.
Defined.

(** ** Placement at every anchor *)

(** X12.  With [stayInsideImage] false the viewport transform is never
    consulted: at every anchor the position is the container corner plus or
    minus the offsets, the same for any transform. *)
Theorem no_clamping_without_stayInsideImage (this : Scalebar)
    (f : Point.t -> Point.t) :
  stayInsideImage this = false ->
  getScalebarLocation (withTransform f this) = getScalebarLocation this /\
  Point.x <$> getScalebarLocation this = spec_unclamped_x this /\
  Point.y <$> getScalebarLocation this = spec_unclamped_y this.
Proof.
  intros Hstay.
  unfold getScalebarLocation, spec_unclamped_x, spec_unclamped_y, withTransform.
  cbn [viewer divElt location xOffset yOffset stayInsideImage
       containerOffsetWidth containerOffsetHeight].
  rewrite Hstay. destruct (location this); repeat split; reflexivity.
Qed.

Lemma no_clamping_without_stayInsideImage_witness :
  getScalebarLocation (withTransform (fun _ => Point.new 0 0) example4)
  = getScalebarLocation example4.
Proof.
  apply (no_clamping_without_stayInsideImage example4 (fun _ => Point.new 0 0)).
  reflexivity.
Defined.

(** X13.  With [stayInsideImage] true and no wrapping on an axis, the
    overlay, offset included, stays on the inner side of both the container
    edge and the content edge the transform reports: at a left (top) anchor
    its near edge is at or beyond both, at a right (bottom) anchor its far
    edge is at or before both. *)
Theorem clamped_overlay_stays_inside (this : Scalebar) (p : Point.t) :
  stayInsideImage this = true ->
  getScalebarLocation this = Some p ->
  let pixel := pixelFromPoint (viewer this) (spec_content_corner this) in
  (wrapHorizontal (viewer this) = false ->
   match location this with
   | ScalebarLocation.TOP_LEFT | ScalebarLocation.BOTTOM_LEFT =>
       0 <= Point.x p - xOffset this /\
       Point.x pixel <= Point.x p - xOffset this
   | ScalebarLocation.TOP_RIGHT | ScalebarLocation.BOTTOM_RIGHT =>
       Point.x p + xOffset this + offsetWidth (divElt this)
       <= containerOffsetWidth (viewer this) /\
       Point.x p + xOffset this + offsetWidth (divElt this) <= Point.x pixel
   | ScalebarLocation.NONE => False
   end) /\
  (wrapVertical (viewer this) = false ->
   match location this with
   | ScalebarLocation.TOP_LEFT | ScalebarLocation.TOP_RIGHT =>
       0 <= Point.y p - yOffset this /\
       Point.y pixel <= Point.y p - yOffset this
   | ScalebarLocation.BOTTOM_LEFT | ScalebarLocation.BOTTOM_RIGHT =>
       Point.y p + yOffset this + offsetHeight (divElt this)
       <= containerOffsetHeight (viewer this) /\
       Point.y p + yOffset this + offsetHeight (divElt this) <= Point.y pixel
   | ScalebarLocation.NONE => False
   end).
Proof.
  intros Hstay. unfold getScalebarLocation, spec_content_corner, Math.max, Math.min.
  rewrite Hstay.
  destruct (location this); [discriminate | | | |]; intros [= <-]; cbv zeta;
    split; intros Hw; rewrite Hw; cbn [negb Point.x Point.y];
    match goal with
    | |- context [Rmax ?a ?b] =>
        pose proof (Rmax_l a b); pose proof (Rmax_r a b)
    | |- context [Rmin ?a ?b] =>
        pose proof (Rmin_l a b); pose proof (Rmin_r a b)
    end; lra.
Qed.

Lemma clamped_overlay_stays_inside_witness :
  Point.y (Point.new (400 - 100 - 5) (Rmin (300 - 20) (400 * (1 / (4 / 3)) - 20) - 5))
  + 5 + 20 <= 300.
Proof.
  destruct (clamped_overlay_stays_inside example5
              (Point.new (400 - 100 - 5)
                 (Rmin (300 - 20) (400 * (1 / (4 / 3)) - 20) - 5))
              eq_refl eq_refl) as [_ H].
  destruct (H eq_refl) as [H1 _]. exact H1.
Defined.

(** X14.  While the content covers the container on the anchor's side (its
    edge, as the transform reports it, is at or outside the container edge)
    clamping changes nothing: the overlay sits at the container corner plus
    or minus the offset, as if [stayInsideImage] were off. *)
Theorem clamp_idle_while_content_covers (this : Scalebar) :
  stayInsideImage this = true ->
  let pixel := pixelFromPoint (viewer this) (spec_content_corner this) in
  (match location this with
   | ScalebarLocation.TOP_LEFT | ScalebarLocation.BOTTOM_LEFT =>
       Point.x pixel <= 0
   | _ => containerOffsetWidth (viewer this) <= Point.x pixel
   end ->
   Point.x <$> getScalebarLocation this = spec_unclamped_x this) /\
  (match location this with
   | ScalebarLocation.TOP_LEFT | ScalebarLocation.TOP_RIGHT =>
       Point.y pixel <= 0
   | _ => containerOffsetHeight (viewer this) <= Point.y pixel
   end ->
   Point.y <$> getScalebarLocation this = spec_unclamped_y this).
Proof.
  intros Hstay.
  unfold getScalebarLocation, spec_content_corner, spec_unclamped_x,
    spec_unclamped_y, Math.max, Math.min.
  rewrite Hstay.
  destruct (location this); cbv zeta; split; intros Hc;
    destruct (wrapHorizontal (viewer this)), (wrapVertical (viewer this));
    cbn [negb fmap option_fmap option_map Point.x Point.y];
    try reflexivity; do 2 f_equal;
    first [ apply Rmax_right; lra | apply Rmax_left; lra
          | apply Rmin_left; lra | apply Rmin_right; lra ].
Qed.

Lemma clamp_idle_while_content_covers_witness :
  Point.y <$> getScalebarLocation example5 = Some (300 - 20 - 5).
Proof.
  destruct (clamp_idle_while_content_covers example5 eq_refl) as [_ H].
  apply H. cbn. lra.
Defined.

(** ** More on [refresh] and the drawing functions *)

Section RefreshMore.

Lemma refresh_throws (options : option ScalebarOptions) (this : Scalebar) :
  let s := updateOptions options this in
  isOpen (viewer s) = true ->
  truthy (pixelsPerMeter s) = true ->
  truthy (location s) = true ->
  worldItems (viewer s) !! referenceItemIdx s = None ->
  refresh options this = Throw "TypeError".
Proof.
  intros s Hopen Hppm Hloc Himg. unfold refresh. cbv zeta. fold s.
  rewrite Hopen, Hppm, Hloc. cbn [negb orb truthy truthy_function].
  set (s1 := set_divElt (setStyle "display" (lit "") (divElt s)) s).
  change (worldItems (viewer s1) !! referenceItemIdx s1)
    with (worldItems (viewer s) !! referenceItemIdx s).
  rewrite Himg. reflexivity.
Qed.

Lemma refresh_places (options : option ScalebarOptions) (this : Scalebar)
    (img : TiledImage) :
  let s := updateOptions options this in
  let shown := set_divElt (setStyle "display" (lit "") (divElt s)) s in
  let props :=
    sizeAndTextRenderer s
      (tiledImageViewportToImageZoom img (getZoom (viewer s))
       * toNumber (pixelsPerMeter s))
      (minWidth s) in
  let drawn := callDrawScalebar (size props) (text props) shown in
  isOpen (viewer s) = true ->
  truthy (pixelsPerMeter s) = true ->
  truthy (location s) = true ->
  worldItems (viewer s) !! referenceItemIdx s = Some img ->
  exists p after,
    getScalebarLocation drawn = Some p /\
    refresh options this = Normal after /\
    style (divElt after) !! "left"%string = Some [Num (Point.x p); Str "px"] /\
    style (divElt after) !! "top"%string = Some [Num (Point.y p); Str "px"] /\
    forall prop, prop <> "left"%string -> prop <> "top"%string ->
                 style (divElt after) !! prop = style (divElt drawn) !! prop.
Proof.
  intros s shown props drawn Hopen Hppm Hloc Himg.
  assert (Hl : truthy (location drawn) = true).
  { unfold drawn, callDrawScalebar. destruct (drawScalebar shown); exact Hloc. }
  destruct (getScalebarLocation_some _ Hl) as [p Hp].
  exists p. unfold refresh. cbv zeta. fold s.
  rewrite Hopen, Hppm, Hloc. cbn [negb orb truthy truthy_function].
  fold shown.
  change (worldItems (viewer shown) !! referenceItemIdx shown)
    with (worldItems (viewer s) !! referenceItemIdx s).
  rewrite Himg.
  change (sizeAndTextRenderer shown
            (tiledImageViewportToImageZoom img (getZoom (viewer shown))
             * toNumber (pixelsPerMeter shown)) (minWidth shown)) with props.
  fold drawn. rewrite Hp.
  eexists. split; [reflexivity |]. split; [reflexivity |].
  cbn [divElt set_divElt setStyle style]. split; [| split].
  - rewrite lookup_insert_ne by done. apply lookup_insert_eq.
  - apply lookup_insert_eq.
  - intros prop Hleft Htop. rewrite !lookup_insert_ne by congruence.
    reflexivity.
Qed.

End RefreshMore.

(** X15.  [refresh] throws in one situation only: the guard is passed (open
    viewer, calibration constant and location present) and the world has
    no item at [referenceItemIdx]; the error is then a [TypeError], raised
    after the element has been set to display. *)
Theorem refresh_throws_iff_item_missing (options : option ScalebarOptions)
    (this : Scalebar) :
  let s := updateOptions options this in
  (forall message, refresh options this = Throw message ->
                   message = "TypeError"%string) /\
  (refresh options this = Throw "TypeError"
   <-> isOpen (viewer s) = true /\
       truthy (pixelsPerMeter s) = true /\
       truthy (location s) = true /\
       worldItems (viewer s) !! referenceItemIdx s = None).
Proof.
  intros s.
  destruct (isOpen (viewer s)) eqn:Hopen;
    [destruct (truthy (pixelsPerMeter s)) eqn:Hppm;
       [destruct (truthy (location s)) eqn:Hloc;
          [destruct (worldItems (viewer s) !! referenceItemIdx s) as [img |]
             eqn:Himg | ] | ] | ].
  - destruct (refresh_runs options this img Hopen Hppm Hloc Himg)
      as (after & Hr & _).
    rewrite Hr. split; [intros m H; discriminate H |].
    split; [intros H; discriminate H | intros (_ & _ & _ & H); discriminate H].
  - rewrite (refresh_throws options this Hopen Hppm Hloc Himg).
    split; [intros m [= <-]; reflexivity | tauto].
  - rewrite refresh_hides
      by (fold s; rewrite Hopen, Hppm, Hloc; reflexivity).
    split; [intros m H; discriminate H |].
    split; [intros H; discriminate H | intros (_ & _ & H & _); discriminate H].
  - rewrite refresh_hides
      by (fold s; rewrite Hopen, Hppm; reflexivity).
    split; [intros m H; discriminate H |].
    split; [intros H; discriminate H | intros (_ & H & _); discriminate H].
  - rewrite refresh_hides by (fold s; rewrite Hopen; reflexivity).
    split; [intros m H; discriminate H |].
    split; [intros H; discriminate H | intros (H & _); discriminate H].
Qed.

Lemma refresh_throws_iff_item_missing_witness :
  refresh None (set_referenceItemIdx 1 example4) = Throw "TypeError".
Proof.
  apply (refresh_throws_iff_item_missing None (set_referenceItemIdx 1 example4)).
  repeat split; try reflexivity. apply truthy_number_nonzero. lra.
Defined.

(** X16.  [refresh] writes the element and nothing else: the instance it
    returns is the one [updateOptions] produced, with another [divElt]; so
    without options every configuration field, [minWidth] included, is
    unchanged. *)
Theorem refresh_writes_element_only (options : option ScalebarOptions)
    (this after : Scalebar) :
  refresh options this = Normal after ->
  after = set_divElt (divElt after) (updateOptions options this) /\
  (options = None -> after = set_divElt (divElt after) this) /\
  layout (divElt after) = layout (divElt this).
Proof.
  intros Hr. pose proof (refresh_element_only _ _ _ Hr) as E.
  split; [exact E |]. split; [intros ->; exact E |].
  assert (Hu : layout (divElt (updateOptions options this))
               = layout (divElt this)).
  { destruct options as [o |]; [| reflexivity].
    destruct (updateOptions_fields o this) as (_ & _ & _ & _ & _ & Hd).
    rewrite Hd. destruct (o_minWidth o) as [w |]; [destruct (truthy w) |];
      reflexivity. }
  rewrite <- Hu. revert Hr. unfold refresh. cbv zeta.
  set (s := updateOptions options this).
  destruct (negb (isOpen (viewer s)) || negb (truthy (drawScalebar s))
            || negb (truthy (pixelsPerMeter s)) || negb (truthy (location s))).
  - intros [= <-]. reflexivity.
  - cbn [viewer referenceItemIdx set_divElt].
    destruct (worldItems (viewer s) !! referenceItemIdx s) as [img |];
      [| discriminate].
    match goal with
    | |- context [getScalebarLocation ?t] => destruct (getScalebarLocation t)
    end; intros [= <-]; unfold callDrawScalebar;
      cbn [drawScalebar set_divElt]; destruct (drawScalebar s); reflexivity.
Qed.

Lemma refresh_writes_element_only_witness :
  set_divElt
    (setStyle "display" (lit "none") (divElt example4))
    (set_pixelsPerMeter None example4)
  = set_divElt
      (divElt
         (set_divElt
            (setStyle "display" (lit "none") (divElt example4))
            (set_pixelsPerMeter None example4)))
      (updateOptions None (set_pixelsPerMeter None example4)).
Proof.
  assert (Hr : refresh None (set_pixelsPerMeter None example4)
               = Normal
                   (set_divElt
                      (setStyle "display" (lit "none") (divElt example4))
                      (set_pixelsPerMeter None example4)))
    by reflexivity.
  destruct (refresh_writes_element_only None _ _ Hr) as [E _]. exact E.
Defined.

(** X17.  When [refresh] shows the bar it places it where
    [getScalebarLocation] says, measured on the element as just drawn: the
    [left] and [top] styles are that point's coordinates in pixels, and no
    other style of the drawn element is changed by the placement. *)
Theorem refresh_places_drawn_bar (options : option ScalebarOptions)
    (this : Scalebar) (img : TiledImage) :
  let s := updateOptions options this in
  let shown := set_divElt (setStyle "display" (lit "") (divElt s)) s in
  let props :=
    sizeAndTextRenderer s
      (tiledImageViewportToImageZoom img (getZoom (viewer s))
       * toNumber (pixelsPerMeter s))
      (minWidth s) in
  let drawn := callDrawScalebar (size props) (text props) shown in
  isOpen (viewer s) = true ->
  truthy (pixelsPerMeter s) = true ->
  truthy (location s) = true ->
  worldItems (viewer s) !! referenceItemIdx s = Some img ->
  exists p after,
    getScalebarLocation drawn = Some p /\
    refresh options this = Normal after /\
    style (divElt after) !! "left"%string = Some [Num (Point.x p); Str "px"] /\
    style (divElt after) !! "top"%string = Some [Num (Point.y p); Str "px"] /\
    forall prop, prop <> "left"%string -> prop <> "top"%string ->
                 style (divElt after) !! prop = style (divElt drawn) !! prop.
Proof. exact (refresh_places options this img). Qed.

Lemma refresh_places_drawn_bar_witness :
  exists p after,
    getScalebarLocation
      (callDrawScalebar
         (size (ScalebarSizeAndTextRenderer.METRIC_LENGTH
                  (tiledImageViewportToImageZoom (mkTiledImage 1 400 400) 1
                   * 1) 100))
         (text (ScalebarSizeAndTextRenderer.METRIC_LENGTH
                  (tiledImageViewportToImageZoom (mkTiledImage 1 400 400) 1
                   * 1) 100))
         (set_divElt (setStyle "display" (lit "") (divElt example4)) example4))
    = Some p /\
    refresh None example4 = Normal after /\
    style (divElt after) !! "left"%string = Some [Num (Point.x p); Str "px"].
Proof.
  destruct (refresh_places_drawn_bar None example4 (mkTiledImage 1 400 400))
    as (p & after & Hp & Hr & Hleft & _); try reflexivity.
  { apply truthy_number_nonzero. lra. }
  exists p, after. split; [exact Hp |]. split; [exact Hr | exact Hleft].
Defined.

(** X18.  Both drawing functions write the text and the bar width, and the
    same font, colour and background styles; outside the border properties
    (those whose name starts with [border]) they set every style alike, and
    they leave alone every style that is neither a border property nor one
    of the six they write (display, position, left, top, ...), and every
    field but the element. *)
Theorem drawing_functions_agree (sz : R) (tx : Text) (this : Scalebar) :
  let map := drawMapScalebar sz tx this in
  let mic := drawMicroscopyScalebar sz tx this in
  (innerHTML (divElt map) = tx /\ innerHTML (divElt mic) = tx) /\
  (style (divElt map) !! "width"%string = Some [Num sz; Str "px"] /\
   style (divElt mic) !! "width"%string = Some [Num sz; Str "px"]) /\
  (forall prop : string,
      String.prefix "border" prop = false ->
      style (divElt map) !! prop = style (divElt mic) !! prop) /\
  (forall prop : string,
      String.prefix "border" prop = false ->
      prop ∉ ["fontSize"; "fontFamily"; "textAlign"; "color";
              "backgroundColor"; "width"]%string ->
      style (divElt map) !! prop = style (divElt this) !! prop /\
      style (divElt mic) !! prop = style (divElt this) !! prop) /\
  (map = set_divElt (divElt map) this /\ mic = set_divElt (divElt mic) this).
Proof.
  intros map mic. subst map mic.
  unfold drawMapScalebar, drawMicroscopyScalebar.
  cbn [divElt set_divElt setStyle setInnerHTML style innerHTML].
  assert (Hborder : forall prop : string,
             String.prefix "border" prop = false ->
             prop <> "border"%string /\ prop <> "borderBottom"%string
             /\ prop <> "borderTop"%string).
  { intros prop Hb.
    repeat split; intros ->; vm_compute in Hb; discriminate Hb. }
  split; [split; reflexivity |].
  split; [split; apply lookup_insert_eq |].
  split; [| split; [| split; reflexivity]].
  - intros prop Hb. destruct (Hborder prop Hb) as (H1 & H2 & H3).
    rewrite !lookup_insert. repeat case_decide; subst; congruence.
  - intros prop Hb Hn. destruct (Hborder prop Hb) as (H1 & H2 & H3).
    repeat (apply not_elem_of_cons in Hn as [? Hn]).
    rewrite !lookup_insert_ne by congruence. split; reflexivity.
Qed.

Lemma drawing_functions_agree_witness :
  style (divElt (drawMapScalebar 150 (lit "100 m") example4)) !! "display"%string
  = style (divElt example4) !! "display"%string.
Proof.
  apply (drawing_functions_agree 150 (lit "100 m") example4).
  - reflexivity.
  - repeat (apply not_elem_of_cons; split; [discriminate |]).
    apply not_elem_of_nil.
Defined.

(** ** Numbers the renderers print *)

(** X19.  Numbers on the imperial ladder: thou and feet stay below [2000],
    inches between one half and [12], feet at least one half, and miles start
    at [25/132] (a thousand feet). *)
Theorem imperial_label_ranges (ppm minSize : R) :
  0 < ppm -> 0 < minSize ->
  let result := ScalebarSizeAndTextRenderer.IMPERIAL_LENGTH ppm minSize in
  exists f : R,
    factorOf (text result) = Some f /\
    (unitOf result = Some "th"%string /\ f < 2000 \/
     unitOf result = Some "in"%string /\ / 2 <= f < 12 \/
     unitOf result = Some "ft"%string /\ / 2 <= f < 2000 \/
     unitOf result = Some "mi"%string /\ 25 / 132 <= f).
Proof.
  intros Hp Hm result. subst result.
  destruct (imperial_ladder ppm minSize Hp) as (Hth & Hin & Hft & Hmi).
  cbv zeta in Hth, Hin, Hft, Hmi.
  destruct (Rlt_dec (2 * minSize) (ppm * 0.0254)) as [H1 | H1];
    [| destruct (Rlt_dec (2 * minSize) (ppm * 0.0254 * 12)) as [H2 | H2];
       [| destruct (Rlt_dec (2 * minSize) (ppm * 0.0254 * 12 * 2000))
            as [H3 | H3]]].
  - rewrite Hth by lra.
    destruct (label_bounds (ppm * 0.0254 / 1000) minSize "th" None None)
      as (f & Ef & Hb & _); try lra.
    exists f. split; [exact Ef |]. left. split; [reflexivity |].
    apply Rmult_lt_reg_r with (ppm * 0.0254 / 1000); lra.
  - rewrite Hin by lra.
    destruct (coarse_label (ppm * 0.0254) minSize 12 "in" None None)
      as (f & Ef & Hlo & Hhi & _); try lra.
    exists f. split; [exact Ef |]. right; left.
    split; [reflexivity |]. split; [exact Hlo | apply Hhi; lra].
  - rewrite Hft by lra.
    destruct (coarse_label (ppm * 0.0254 * 12) minSize 2000 "ft" None None)
      as (f & Ef & Hlo & Hhi & _); try lra.
    exists f. split; [exact Ef |]. right; right; left.
    split; [reflexivity |]. split; [exact Hlo | apply Hhi; lra].
  - rewrite Hmi by lra.
    destruct (label_bounds (ppm * 0.0254 * 12 * 5280) minSize "mi" None None)
      as (f & Ef & Hb & _); try lra.
    exists f. split; [exact Ef |]. right; right; right.
    split; [reflexivity |].
    apply Rmult_le_reg_r with (ppm * 0.0254 * 12 * 5280); lra.
Qed.

Lemma imperial_label_ranges_witness :
  exists f : R,
    factorOf (text (ScalebarSizeAndTextRenderer.IMPERIAL_LENGTH 0.1 50))
    = Some f /\ 25 / 132 <= f.
Proof.
  destruct (imperial_label_ranges 0.1 50) as (f & Ef & Hcase); [lra | lra |].
  exists f. split; [exact Ef |].
  destruct (imperial_ladder 0.1 50) as (_ & _ & _ & Hmi); [lra |].
  assert (E : unitOf (ScalebarSizeAndTextRenderer.IMPERIAL_LENGTH 0.1 50)
              = Some "mi"%string) by (rewrite Hmi by lra; reflexivity).
  rewrite E in Hcase.
  destruct Hcase as [[H _] | [[H _] | [[H _] | [_ H]]]];
    try discriminate H. exact H.
Defined.

Section RoundNumbers.







End RoundNumbers.


